(** * Workspace membership and invite links of kan

    A shallow embedding of the tRPC member router
    (packages/api/src/routers/member.ts) and of the member repository
    (member.repo.ts, with the workspace_invite_link migration), followed by
    the properties of the invitation engine that the specification states.

    The routers are [async] functions that await store calls and external
    calls one after the other, and signal failure by throwing a [TRPCError].
    Nothing is wrapped in a database transaction, so a write made before a
    throw stays in the store.  The embedding therefore runs every procedure
    in a state-and-exception monad whose state survives a throw. *)

From Stdlib Require Import ZArith List String Ascii Bool Lia DecimalString.
Import ListNotations.

Local Open Scope string_scope.
Local Open Scope Z_scope.
Local Open Scope list_scope.

(** String equality and concatenation, as [===] and template literals. *)
Infix "==" := String.eqb (at level 70, no associativity).
Infix "^^" := String.append (at level 60, right associativity).

(** ** Values *)

(** A JS [Date], as the number of milliseconds since the epoch. *)
Definition Date := Z.

Definition msPerDay : Z := 86400000.

(** ECMAScript's day number, time within the day and [MakeDate], on a time
    value in milliseconds. *)
Definition Day (t : Z) : Z := t / msPerDay.
Definition TimeWithinDay (t : Z) : Z := t mod msPerDay.
Definition MakeDate (day time : Z) : Z := day * msPerDay + time.

(** [Number.prototype.toString] on an integer. *)
Definition toString (n : Z) : string := NilZero.string_of_int (Z.to_int n).

(** JS truthiness of a string that may be [undefined]/[null]: absent and
    empty strings are falsy. *)
Definition truthy (s : option string) : bool :=
  match s with
  | Some s => negb (s == EmptyString)
  | None => false
  end.

Definition option_eqb (a : option string) (b : string) : bool :=
  match a with
  | Some a => a == b
  | None => false
  end.

Definition isNull {A : Type} (o : option A) : bool :=
  match o with
  | Some _ => false
  | None => true
  end.

(** ** Schema *)

Inductive MemberStatus := invited | active.

Definition MemberStatus_eqb (a b : MemberStatus) : bool :=
  match a, b with
  | invited, invited | active, active => true
  | _, _ => false
  end.

(** Rows of [workspace_member], with the columns the repository reads and
    writes.  Roles are the strings stored in the column. *)
Record Member := mkMember {
  m_id : Z;
  m_publicId : string;
  m_email : string;
  m_userId : option string;
  m_workspaceId : Z;
  m_createdBy : string;
  m_role : string;
  m_status : MemberStatus;
  m_deletedAt : option Date;
  m_deletedBy : option string
}.

(** Rows of [workspace_invite_link] (the CREATE TABLE of the migration). *)
Record InviteLink := mkInviteLink {
  l_id : Z;
  l_workspaceId : Z;
  l_inviteCode : string;
  l_role : string;
  l_isUsed : bool;
  l_createdBy : string;
  l_createdAt : Date;
  l_expiresAt : Date;
  l_usedAt : option Date;
  l_usedBy : option string
}.

Record Workspace := mkWorkspace {
  w_id : Z;
  w_publicId : string;
  w_slug : string;
  w_name : string
}.

Record User := mkUser {
  u_id : string;
  u_email : string;
  u_name : option string
}.

(** A billing subscription as the router uses it: a plan tier, whether it is
    active, the optional Stripe handle and the unlimited-seats flag. *)
Record Subscription := mkSubscription {
  s_referenceId : string;
  s_plan : string;
  s_active : bool;
  s_stripeSubscriptionId : option string;
  s_unlimitedSeats : bool
}.

(** The store: one list of rows per table, in insertion order, and the two
    BIGSERIAL sequences. *)
Record Db := mkDb {
  workspaceMembers : list Member;
  workspaceInviteLinks : list InviteLink;
  workspaces : list Workspace;
  users : list User;
  subscriptions : list Subscription;
  memberSeq : Z;
  inviteLinkSeq : Z
}.

(** ** Effects *)

(** What a procedure does to the outside, in the order it does it: calls to
    the billing provider, magic-link dispatches, [console.error] lines and
    the writes it issues to the store. *)
Inductive Event :=
| SeatsUpdated (stripeSubscriptionId : string) (delta : Z) (ok : bool)
| MagicLinkSent (email callbackURL : string) (status : bool)
| ConsoleError (msg : string)
| MemberInserted (id : Z)
| MemberUpdated (id : Z)
| InviteLinkInserted (id : Z)
| InviteLinkUpdated (id : Z)
| InviteLinkDeleted (id : Z).

(** The world a request runs in: the store, how many times the clock and the
    id generators were read, and the effects so far (oldest first). *)
Record World := mkWorld {
  db : Db;
  ticks : nat;
  draws : nat;
  trace : list Event
}.

(** What the process is started with and what it cannot control:
    [process.env], the clock, the random id generators, the outcome of the
    external calls, and the time zone of the host as ECMAScript sees it:
    [LocalTZA t isUTC] is the offset of local time from UTC, in
    milliseconds, at the time value [t], which is a UTC time when [isUTC]
    and a local time otherwise. *)
Record Env := mkEnv {
  NEXT_PUBLIC_KAN_ENV : option string;
  NEXT_PUBLIC_BASE_URL : option string;
  clock : nat -> Date;
  entropy : nat -> string;
  stripe_ok : string -> Z -> bool;
  magicLink_ok : string -> string -> bool;
  LocalTZA : Z -> bool -> Z
}.

Inductive TRPC_ERROR_CODE :=
| UNAUTHORIZED | FORBIDDEN | NOT_FOUND | CONFLICT | BAD_REQUEST
| INTERNAL_SERVER_ERROR.

(** What can be thrown: a [TRPCError], an error of an external client, or
    the database refusing a statement that violates a constraint. *)
Inductive Exn :=
| TRPCError (message : string) (code : TRPC_ERROR_CODE)
| ExternalError
| DatabaseError (constraint : string).

Inductive Result (A : Type) :=
| Ok (a : A)
| Thrown (e : Exn).
Arguments Ok {A} a.
Arguments Thrown {A} e.

(** ** The monad of the procedures *)

Definition M (A : Type) : Type := World -> Result A * World.

Definition ret {A} (a : A) : M A := fun w => (Ok a, w).

Definition bind {A B} (c : M A) (k : A -> M B) : M B :=
  fun w =>
    match c w with
    | (Ok a, w') => k a w'
    | (Thrown e, w') => (Thrown e, w')
    end.

Definition throw {A} (e : Exn) : M A := fun w => (Thrown e, w).

(** [try { c } catch (error) { h error }] *)
Definition try_catch {A} (c : M A) (h : Exn -> M A) : M A :=
  fun w =>
    match c w with
    | (Ok a, w') => (Ok a, w')
    | (Thrown e, w') => h e w'
    end.

Definition getDb : M Db := fun w => (Ok (db w), w).

Definition putDb (d : Db) : M unit :=
  fun w => (Ok tt, mkWorld d (ticks w) (draws w) (trace w)).

Definition emit (e : Event) : M unit :=
  fun w => (Ok tt, mkWorld (db w) (ticks w) (draws w) (trace w ++ [e])).

Declare Scope m_scope.
Delimit Scope m_scope with m.
Notation "x <- c ;; k" := (bind c (fun x => k))
  (at level 61, c at next level, right associativity) : m_scope.
Notation "c ;;; k" := (bind c (fun _ => k))
  (at level 61, right associativity) : m_scope.
Local Open Scope m_scope.

(** [if (!x) throw e] for a value that may be undefined. *)
Definition orThrow {A} (o : option A) (e : Exn) : M A :=
  match o with
  | Some a => ret a
  | None => throw e
  end.

Definition when (b : bool) (c : M unit) : M unit :=
  if b then c else ret tt.

Section Process.

Variable env : Env.

(** [process.env.NEXT_PUBLIC_KAN_ENV === "cloud"] *)
Definition isCloud : bool := option_eqb (NEXT_PUBLIC_KAN_ENV env) "cloud".

(** ECMAScript's [LocalTime] and [UTC]: from a time value to the local
    wall-clock reading, and back. *)
Definition LocalTime (t : Date) : Z := t + LocalTZA env t true.
Definition UTC (t : Z) : Date := t - LocalTZA env t false.

(** [d.setDate(d.getDate() + n)].  [getDate] is the day of the month of the
    local time of [d]; [setDate] rebuilds the local time from the same
    year and month, the new day of the month and the same time within the
    day, and converts it back with [UTC].  [MakeDay] counts days from the
    first of the month, so a day of the month past its end runs into the
    next months: the day number is the one of the local time plus [n]. *)
Definition setDate_plus (d : Date) (n : Z) : Date :=
  UTC (MakeDate (Day (LocalTime d) + n) (TimeWithinDay (LocalTime d))).

(** [new Date()] *)
Definition newDate : M Date :=
  fun w => (Ok (clock env (ticks w)),
            mkWorld (db w) (S (ticks w)) (draws w) (trace w)).

(** [nanoid(n)] and [generateUID()]: the next string of the generator. *)
Definition draw : M string :=
  fun w => (Ok (entropy env (draws w)),
            mkWorld (db w) (ticks w) (S (draws w)) (trace w)).

Definition nanoid (size : Z) : M string := draw.
Definition generateUID : M string := draw.

Definition console_error (msg : string) : M unit := emit (ConsoleError msg).

(** Modelled from the spec: [updateSubscriptionSeats] of @kan/stripe is not
    in the sources.  Seat Sync "issues seat increment/decrement calls to the
    external billing provider"; a call that fails throws. *)
Definition updateSubscriptionSeats (stripeSubscriptionId : string)
    (delta : Z) : M unit :=
  let ok := stripe_ok env stripeSubscriptionId delta in
  emit (SeatsUpdated stripeSubscriptionId delta ok) ;;;
  if ok then ret tt else throw ExternalError.

(** [ctx.auth.api.signInMagicLink({ email, callbackURL })], of which the
    router reads the [status] field. *)
Definition signInMagicLink (email callbackURL : string) : M bool :=
  let status := magicLink_ok env email callbackURL in
  emit (MagicLinkSent email callbackURL status) ;;;
  ret status.

End Process.

(** ** Store updates *)

Definition set_workspaceMembers (d : Db) (rows : list Member) (seq : Z) : Db :=
  mkDb rows (workspaceInviteLinks d) (workspaces d) (users d)
       (subscriptions d) seq (inviteLinkSeq d).

Definition set_workspaceInviteLinks (d : Db) (rows : list InviteLink)
    (seq : Z) : Db :=
  mkDb (workspaceMembers d) rows (workspaces d) (users d)
       (subscriptions d) (memberSeq d) seq.

(** [UPDATE t SET ... WHERE cond]: every row that satisfies [cond] is
    rewritten, the others are kept, order unchanged. *)
Definition update_where {A} (cond : A -> bool) (set : A -> A)
    (rows : list A) : list A :=
  map (fun r => if cond r then set r else r) rows.

(** [DELETE FROM t WHERE cond] *)
Definition delete_where {A} (cond : A -> bool) (rows : list A) : list A :=
  filter (fun r => negb (cond r)) rows.

(** The rows a statement affects. *)
Definition affected {A} (cond : A -> bool) (rows : list A) : list A :=
  filter cond rows.

(** ** member.repo.ts *)

Module memberRepo.

Record MemberInput := mkMemberInput {
  userId : option string;
  email : string;
  workspaceId : Z;
  createdBy : string;
  role : string;
  status : MemberStatus
}.

(** The columns of [.returning({ id, publicId })]. *)
Record MemberRef := mkMemberRef {
  id : Z;
  publicId : string
}.

Definition returningRef (m : Member) : MemberRef :=
  mkMemberRef (m_id m) (m_publicId m).

Definition create (env : Env) (memberInput : MemberInput)
    : M (option MemberRef) :=
  uid <- generateUID env ;;
  d <- getDb ;;
  let row :=
    mkMember (memberSeq d) uid (email memberInput) (userId memberInput)
             (workspaceId memberInput) (createdBy memberInput)
             (role memberInput) (status memberInput) None None in
  putDb (set_workspaceMembers d (workspaceMembers d ++ [row])
                              (memberSeq d + 1)) ;;;
  emit (MemberInserted (m_id row)) ;;;
  ret (hd_error [returningRef row]).

Definition getByPublicId (publicId : string) : M (option Member) :=
  d <- getDb ;;
  ret (find (fun m => m_publicId m == publicId) (workspaceMembers d)).

Definition getByEmailAndStatus (email : string) (status : MemberStatus)
    : M (option Member) :=
  d <- getDb ;;
  ret (find (fun m => (m_email m == email)
                      && MemberStatus_eqb (m_status m) status
                      && isNull (m_deletedAt m))
            (workspaceMembers d)).

Definition acceptInvite (memberId : Z) (userId : string)
    : M (option MemberRef) :=
  d <- getDb ;;
  let cond m := m_id m =? memberId in
  let set m :=
    mkMember (m_id m) (m_publicId m) (m_email m) (Some userId)
             (m_workspaceId m) (m_createdBy m) (m_role m) active
             (m_deletedAt m) (m_deletedBy m) in
  putDb (set_workspaceMembers d (update_where cond set (workspaceMembers d))
                              (memberSeq d)) ;;;
  emit (MemberUpdated memberId) ;;;
  ret (hd_error (map returningRef (affected cond (workspaceMembers d)))).

Definition softDelete_where (memberId : Z) (m : Member) : bool :=
  (m_id m =? memberId) && isNull (m_deletedAt m).

Definition softDelete_set (deletedAt : Date) (deletedBy : string)
    (m : Member) : Member :=
  mkMember (m_id m) (m_publicId m) (m_email m) (m_userId m)
           (m_workspaceId m) (m_createdBy m) (m_role m) (m_status m)
           (Some deletedAt) (Some deletedBy).

Definition softDelete (memberId : Z) (deletedAt : Date) (deletedBy : string)
    : M (option MemberRef) :=
  d <- getDb ;;
  putDb (set_workspaceMembers d
           (update_where (softDelete_where memberId)
                         (softDelete_set deletedAt deletedBy)
                         (workspaceMembers d))
           (memberSeq d)) ;;;
  emit (MemberUpdated memberId) ;;;
  ret (hd_error (map returningRef
                     (affected (softDelete_where memberId)
                               (workspaceMembers d)))).

(** Workspace invite links *)

Record InviteLinkInput := mkInviteLinkInput {
  il_workspaceId : Z;
  il_inviteCode : string;
  il_createdBy : string;
  il_role : string;
  il_expiresAt : Date
}.

(** The columns of [.returning({ id, inviteCode, expiresAt })]. *)
Record InviteLinkRef := mkInviteLinkRef {
  r_id : Z;
  r_inviteCode : string;
  r_expiresAt : Date
}.

Definition returningLink (l : InviteLink) : InviteLinkRef :=
  mkInviteLinkRef (l_id l) (l_inviteCode l) (l_expiresAt l).

(** The constraint "workspace_invite_link_inviteCode_unique" of the
    migration: no two rows with the same invite code. *)
Definition inviteCode_taken (d : Db) (inviteCode : string) : bool :=
  existsb (fun l => l_inviteCode l == inviteCode) (workspaceInviteLinks d).

(** The columns the insert leaves out take their defaults: [id] the next
    value of the sequence, [isUsed] FALSE, [createdAt] NOW(), [usedAt] and
    [usedBy] NULL.  The table's UNIQUE ("inviteCode") is checked when the
    row is written: an insert under a code that is taken throws and stores
    no row.  The defaults were computed by then, and a value drawn from a
    sequence is not given back.  The foreign keys are left out: the router
    passes the id of a workspace it has just read and the id of the user of
    the session. *)
Definition createInviteLink (env : Env) (args : InviteLinkInput)
    : M (option InviteLinkRef) :=
  now <- newDate env ;;
  d <- getDb ;;
  let row :=
    mkInviteLink (inviteLinkSeq d) (il_workspaceId args)
                 (il_inviteCode args) (il_role args) false
                 (il_createdBy args) now (il_expiresAt args) None None in
  if inviteCode_taken d (il_inviteCode args) then
    putDb (set_workspaceInviteLinks d (workspaceInviteLinks d)
                                    (inviteLinkSeq d + 1)) ;;;
    throw (DatabaseError "workspace_invite_link_inviteCode_unique")
  else
    putDb (set_workspaceInviteLinks d (workspaceInviteLinks d ++ [row])
                                    (inviteLinkSeq d + 1)) ;;;
    emit (InviteLinkInserted (l_id row)) ;;;
    ret (hd_error [returningLink row]).

Definition getInviteLinkByCode (inviteCode : string)
    : M (option InviteLink) :=
  d <- getDb ;;
  ret (find (fun l => l_inviteCode l == inviteCode)
            (workspaceInviteLinks d)).

Definition markUsed_where (inviteLinkId : Z) (l : InviteLink) : bool :=
  l_id l =? inviteLinkId.

(** [.set({ isUsed: true, usedAt, usedBy: userId })]; a key whose value is
    [undefined] is left out of the SET clause. *)
Definition markUsed_set (usedAt : Date) (userId : option string)
    (l : InviteLink) : InviteLink :=
  mkInviteLink (l_id l) (l_workspaceId l) (l_inviteCode l) (l_role l) true
               (l_createdBy l) (l_createdAt l) (l_expiresAt l) (Some usedAt)
               (match userId with
                | Some u => Some u
                | None => l_usedBy l
                end).

(** The statement has no RETURNING clause: what comes back is the driver's
    result, kept here as the number of rows affected. *)
Definition markInviteLinkAsUsed (env : Env) (inviteLinkId : Z)
    (userId : option string) : M nat :=
  usedAt <- newDate env ;;
  d <- getDb ;;
  putDb (set_workspaceInviteLinks d
           (update_where (markUsed_where inviteLinkId)
                         (markUsed_set usedAt userId)
                         (workspaceInviteLinks d))
           (inviteLinkSeq d)) ;;;
  emit (InviteLinkUpdated inviteLinkId) ;;;
  ret (List.length (affected (markUsed_where inviteLinkId)
                        (workspaceInviteLinks d))).

Definition getInviteLinksByWorkspaceId (workspaceId : Z)
    (includeExpired : bool) : M (list InviteLink) :=
  d <- getDb ;;
  let where_ l :=
    if includeExpired then l_workspaceId l =? workspaceId
    else (l_workspaceId l =? workspaceId) && Bool.eqb (l_isUsed l) false in
  ret (filter where_ (workspaceInviteLinks d)).

Definition deleteInviteLink (inviteLinkId : Z) : M nat :=
  d <- getDb ;;
  let cond l := l_id l =? inviteLinkId in
  putDb (set_workspaceInviteLinks d
           (delete_where cond (workspaceInviteLinks d))
           (inviteLinkSeq d)) ;;;
  emit (InviteLinkDeleted inviteLinkId) ;;;
  ret (List.length (affected cond (workspaceInviteLinks d))).

End memberRepo.

(** ** Collaborators outside the sources *)

Module workspaceRepo.

(** Modelled from the spec: [workspaceRepo.getByPublicId] is not in the
    sources; it resolves a workspace by its public id. *)
Definition getByPublicId (publicId : string) : M (option Workspace) :=
  d <- getDb ;;
  ret (find (fun w => w_publicId w == publicId) (workspaces d)).

(** Modelled from the spec: [workspaceRepo.getByPublicIdWithMembers] is not
    in the sources; the members it returns are the "non-deleted Member[s] of
    the workspace". *)
Definition getByPublicIdWithMembers (publicId : string)
    : M (option (Workspace * list Member)) :=
  d <- getDb ;;
  ret (match find (fun w => w_publicId w == publicId) (workspaces d) with
       | Some w =>
           Some (w, filter (fun m => (m_workspaceId m =? w_id w)
                                     && isNull (m_deletedAt m))
                           (workspaceMembers d))
       | None => None
       end).

(** Modelled from the spec: [workspaceRepo.getById] is not in the sources;
    it resolves a workspace by its numeric id. *)
Definition getById (id : Z) : M (option Workspace) :=
  d <- getDb ;;
  ret (find (fun w => w_id w =? id) (workspaces d)).

(** Modelled from the spec: [workspaceRepo.isUserInWorkspace] is not in the
    sources; the user "is ... already an active member of the workspace". *)
Definition isUserInWorkspace (userId : string) (workspaceId : Z) : M bool :=
  d <- getDb ;;
  ret (existsb (fun m => option_eqb (m_userId m) userId
                         && (m_workspaceId m =? workspaceId)
                         && MemberStatus_eqb (m_status m) active
                         && isNull (m_deletedAt m))
               (workspaceMembers d)).

End workspaceRepo.

Module userRepo.

(** Modelled from the spec: [userRepo.getByEmail] is not in the sources;
    Identity Lookup "resolves an email or user-id to an existing account". *)
Definition getByEmail (email : string) : M (option User) :=
  d <- getDb ;;
  ret (find (fun u => u_email u == email) (users d)).

(** Modelled from the spec: [userRepo.getById] is not in the sources; see
    [getByEmail]. *)
Definition getById (id : string) : M (option User) :=
  d <- getDb ;;
  ret (find (fun u => u_id u == id) (users d)).

End userRepo.

Module subscriptionRepo.

(** Modelled from the spec: [subscriptionRepo.getByReferenceId] is not in
    the sources; it "reads ... billing subscriptions for a workspace". *)
Definition getByReferenceId (referenceId : string) : M (list Subscription) :=
  d <- getDb ;;
  ret (filter (fun s => s_referenceId s == referenceId) (subscriptions d)).

End subscriptionRepo.

(** Modelled from the spec: [getSubscriptionByPlan] of @kan/shared/utils is
    not in the sources; it picks the active subscription of a plan tier. *)
Definition getSubscriptionByPlan (subscriptions : list Subscription)
    (plan : string) : option Subscription :=
  find (fun s => (s_plan s == plan) && s_active s) subscriptions.

(** Modelled from the spec: [hasUnlimitedSeats] of @kan/shared/utils is not
    in the sources; an active subscription carries "an unlimited-seats
    flag". *)
Definition hasUnlimitedSeats (subscriptions : list Subscription) : bool :=
  existsb (fun s => s_active s && s_unlimitedSeats s) subscriptions.

(** Modelled from the spec: [assertUserInWorkspace] of ../utils/auth is not
    in the sources; the caller "must hold [admin] role in the workspace
    (authorization check against the Membership Store - fails with
    [Forbidden] otherwise)". *)
Definition assertUserInWorkspace (userId : string) (workspaceId : Z)
    (role : string) : M unit :=
  d <- getDb ;;
  if existsb (fun m => option_eqb (m_userId m) userId
                       && (m_workspaceId m =? workspaceId)
                       && (m_role m == role)
                       && isNull (m_deletedAt m))
             (workspaceMembers d)
  then ret tt
  else throw (TRPCError "You do not have access to this workspace" FORBIDDEN).

(** ** routers/member.ts *)

Module memberRouter.

Import memberRepo.

(** [const userId = ctx.user?.id; if (!userId) throw ...] *)
Definition requireUser (ctx_user : option string) : M string :=
  match ctx_user with
  | Some userId =>
      if userId == EmptyString
      then throw (TRPCError "User not authenticated" UNAUTHORIZED)
      else ret userId
  | None => throw (TRPCError "User not authenticated" UNAUTHORIZED)
  end.

(** [activeTeamSubscription?.stripeSubscriptionId] *)
Definition stripeSubscriptionIdOf (sub : option Subscription)
    : option string :=
  match sub with
  | Some s => s_stripeSubscriptionId s
  | None => None
  end.

Record InviteInput := mkInviteInput {
  i_email : string;
  i_workspacePublicId : string
}.

Record DeleteInput := mkDeleteInput {
  d_workspacePublicId : string;
  d_memberPublicId : string
}.

Record Success := mkSuccess { success : bool }.

(** A JSON number: an integer, or any other number. *)
Inductive JsNumber :=
| Int (z : Z)
| NonInt.

(** The body of a generate-invite-link request before validation. *)
Record GenerateInviteLinkRaw := mkGenerateInviteLinkRaw {
  raw_workspacePublicId : string;
  raw_role : option string;
  raw_expiresIn : option JsNumber
}.

Record GenerateInviteLinkInput := mkGenerateInviteLinkInput {
  g_workspacePublicId : string;
  g_role : string;
  g_expiresIn : Z
}.

Record GenerateInviteLinkOutput := mkGenerateInviteLinkOutput {
  inviteLink : string;
  inviteCode : string;
  expiresAt : Date
}.

Record AcceptInviteLinkInput := mkAcceptInviteLinkInput {
  a_inviteCode : string;
  a_userId : string
}.

Record AcceptInviteLinkOutput := mkAcceptInviteLinkOutput {
  a_success : bool;
  workspacePublicId : option string;
  workspaceSlug : option string
}.

Record InviteInfo := mkInviteInfo {
  info_workspaceName : string;
  info_workspaceSlug : string;
  info_inviterName : option string;
  info_expiresAt : Date;
  info_isExpired : bool;
  info_isUsed : bool
}.

Record InviteLinkItem := mkInviteLinkItem {
  item_id : Z;
  item_inviteCode : string;
  item_role : string;
  item_createdAt : Date;
  item_expiresAt : Date
}.

(** [z.string().min(12)] *)
Definition min12 (s : string) : bool := (12 <=? String.length s)%nat.

(** [z.enum(["member", "admin"]).default("member")] *)
Definition parseRole (r : option string) : option string :=
  match r with
  | None => Some "member"
  | Some r => if (r == "member") || (r == "admin") then Some r else None
  end.

(** [z.number().int().min(1).max(30).default(7)] *)
Definition parseExpiresIn (n : option JsNumber) : option Z :=
  match n with
  | None => Some 7
  | Some (Int z) => if (1 <=? z) && (z <=? 30) then Some z else None
  | Some NonInt => None
  end.

(** The [.input(z.object({ ... }))] schema of [generateInviteLink]. *)
Definition parseGenerateInviteLinkInput (raw : GenerateInviteLinkRaw)
    : option GenerateInviteLinkInput :=
  if min12 (raw_workspacePublicId raw) then
    match parseRole (raw_role raw), parseExpiresIn (raw_expiresIn raw) with
    | Some r, Some n =>
        Some (mkGenerateInviteLinkInput (raw_workspacePublicId raw) r n)
    | _, _ => None
    end
  else None.

Section Procedures.

Variable env : Env.

(** The cloud branch of [invite], lines 67-106: the subscription check and
    the seat increment. *)
Definition invite_billing (workspace : Workspace) : M unit :=
  when (isCloud env)
    (subscriptions <- subscriptionRepo.getByReferenceId
                        (w_publicId workspace) ;;
     let activeTeamSubscription :=
       getSubscriptionByPlan subscriptions "team" in
     let activeProSubscription :=
       getSubscriptionByPlan subscriptions "pro" in
     let unlimitedSeats := hasUnlimitedSeats subscriptions in
     when (isNull activeTeamSubscription && isNull activeProSubscription)
       (throw (TRPCError ("Workspace with public ID "
                          ^^ w_publicId workspace
                          ^^ " does not have an active subscription")
                         NOT_FOUND)) ;;;
     match stripeSubscriptionIdOf activeTeamSubscription with
     | Some stripeSubscriptionId =>
         when (negb (stripeSubscriptionId == EmptyString)
               && negb unlimitedSeats)
           (try_catch
              (updateSubscriptionSeats env stripeSubscriptionId 1)
              (fun error =>
                 console_error "Failed to update Stripe subscription seats:" ;;;
                 throw (TRPCError
                          "Failed to update subscription for the new member."
                          INTERNAL_SERVER_ERROR)))
     | None => ret tt
     end).

(** [invite]: the mutation of lines 34-149. *)
Definition invite (ctx_user : option string) (input : InviteInput)
    : M MemberRef :=
  userId <- requireUser ctx_user ;;
  found <- workspaceRepo.getByPublicIdWithMembers (i_workspacePublicId input) ;;
  found <- orThrow found
    (TRPCError ("Workspace with public ID " ^^ i_workspacePublicId input
                ^^ " not found") NOT_FOUND) ;;
  let workspace := fst found in
  let members := snd found in
  assertUserInWorkspace userId (w_id workspace) "admin" ;;;
  let isInvitedEmailAlreadyMember :=
    existsb (fun member => m_email member == i_email input) members in
  when isInvitedEmailAlreadyMember
    (throw (TRPCError ("User with email " ^^ i_email input
                       ^^ " is already a member of this workspace")
                      CONFLICT)) ;;;
  invite_billing workspace ;;;
  existingUser <- userRepo.getByEmail (i_email input) ;;
  invite <- create env
    (mkMemberInput (option_map u_id existingUser) (i_email input)
                   (w_id workspace) userId "member" invited) ;;
  invite <- orThrow invite
    (TRPCError ("Unable to invite user with email " ^^ i_email input)
               INTERNAL_SERVER_ERROR) ;;
  status <- signInMagicLink env (i_email input)
    ("/boards?type=invite&memberPublicId=" ^^ publicId invite) ;;
  if negb status then
    console_error "Failed to send magic link invitation:" ;;;
    deletedAt <- newDate env ;;
    softDelete (id invite) deletedAt userId ;;;
    throw (TRPCError ("Failed to send magic link invitation to user with email "
                      ^^ i_email input ^^ ".")
                     INTERNAL_SERVER_ERROR)
  else ret invite.

(** [delete]: the mutation of lines 168-244. *)
Definition delete (ctx_user : option string) (input : DeleteInput)
    : M Success :=
  userId <- requireUser ctx_user ;;
  workspace <- workspaceRepo.getByPublicId (d_workspacePublicId input) ;;
  workspace <- orThrow workspace
    (TRPCError ("Workspace with public ID " ^^ d_workspacePublicId input
                ^^ " not found") NOT_FOUND) ;;
  assertUserInWorkspace userId (w_id workspace) "admin" ;;;
  member <- getByPublicId (d_memberPublicId input) ;;
  member <- orThrow member
    (TRPCError ("Member with public ID " ^^ d_memberPublicId input
                ^^ " not found") NOT_FOUND) ;;
  deletedAt <- newDate env ;;
  deletedMember <- softDelete (m_id member) deletedAt userId ;;
  deletedMember <- orThrow deletedMember
    (TRPCError ("Failed to delete member with public ID "
                ^^ d_memberPublicId input) INTERNAL_SERVER_ERROR) ;;
  when (isCloud env)
    (subscriptions <- subscriptionRepo.getByReferenceId
                        (w_publicId workspace) ;;
     let activeTeamSubscription :=
       getSubscriptionByPlan subscriptions "team" in
     let unlimitedSeats := hasUnlimitedSeats subscriptions in
     match stripeSubscriptionIdOf activeTeamSubscription with
     | Some stripeSubscriptionId =>
         when (negb (stripeSubscriptionId == EmptyString)
               && negb unlimitedSeats)
           (try_catch
              (updateSubscriptionSeats env stripeSubscriptionId (-1))
              (fun error =>
                 console_error
                   "Failed to decrease Stripe subscription seats:"))
     | None => ret tt
     end) ;;;
  ret (mkSuccess true).

(** [process.env.NEXT_PUBLIC_BASE_URL || "http://localhost:3000"] *)
Definition baseUrl : string :=
  match NEXT_PUBLIC_BASE_URL env with
  | Some url => if url == EmptyString then "http://localhost:3000" else url
  | None => "http://localhost:3000"
  end.

(** [generateInviteLink]: the mutation of lines 269-348, on an input that
    passed the schema. *)
Definition generateInviteLink (ctx_user : option string)
    (input : GenerateInviteLinkInput) : M GenerateInviteLinkOutput :=
  userId <- requireUser ctx_user ;;
  found <- workspaceRepo.getByPublicIdWithMembers (g_workspacePublicId input) ;;
  found <- orThrow found
    (TRPCError ("Workspace with public ID " ^^ g_workspacePublicId input
                ^^ " not found") NOT_FOUND) ;;
  let workspace := fst found in
  assertUserInWorkspace userId (w_id workspace) "admin" ;;;
  when (isCloud env)
    (subscriptions <- subscriptionRepo.getByReferenceId
                        (w_publicId workspace) ;;
     let activeTeamSubscription :=
       getSubscriptionByPlan subscriptions "team" in
     let activeProSubscription :=
       getSubscriptionByPlan subscriptions "pro" in
     when (isNull activeTeamSubscription && isNull activeProSubscription)
       (throw (TRPCError ("Workspace with public ID "
                          ^^ w_publicId workspace
                          ^^ " does not have an active subscription")
                         FORBIDDEN))) ;;;
  inviteCode <- nanoid env 12 ;;
  now <- newDate env ;;
  let expiresAt := setDate_plus env now (g_expiresIn input) in
  invite <- createInviteLink env
    (mkInviteLinkInput (w_id workspace) inviteCode userId (g_role input)
                       expiresAt) ;;
  invite <- orThrow invite
    (TRPCError "Unable to create invite link" INTERNAL_SERVER_ERROR) ;;
  let inviteLink := baseUrl ^^ "/invite/" ^^ inviteCode in
  ret (mkGenerateInviteLinkOutput inviteLink (r_inviteCode invite)
                                  (r_expiresAt invite)).

(** The procedure as a request reaches it: the schema first, the mutation on
    what the schema let through.  A rejected input is answered with a
    BAD_REQUEST whose message lists the schema's issues. *)
Definition generateInviteLink_request (ctx_user : option string)
    (raw : GenerateInviteLinkRaw) : M GenerateInviteLinkOutput :=
  match parseGenerateInviteLinkInput raw with
  | Some input => generateInviteLink ctx_user input
  | None => throw (TRPCError "Input validation failed" BAD_REQUEST)
  end.

(** [acceptInviteLink]: the mutation of lines 372-429.  The three-way [||]
    of the validity check short-circuits: the clock is read only for a link
    that exists and is not used. *)
Definition acceptInviteLink (input : AcceptInviteLinkInput)
    : M AcceptInviteLinkOutput :=
  invite <- getInviteLinkByCode (a_inviteCode input) ;;
  invite <-
    match invite with
    | None => throw (TRPCError "Invalid or expired invite link" BAD_REQUEST)
    | Some invite =>
        if l_isUsed invite then
          throw (TRPCError "Invalid or expired invite link" BAD_REQUEST)
        else
          now <- newDate env ;;
          if l_expiresAt invite <? now then
            throw (TRPCError "Invalid or expired invite link" BAD_REQUEST)
          else ret invite
    end ;;
  workspace <- workspaceRepo.getById (l_workspaceId invite) ;;
  workspace <- orThrow workspace
    (TRPCError "Workspace not found" NOT_FOUND) ;;
  isMember <- workspaceRepo.isUserInWorkspace (a_userId input)
                (l_workspaceId invite) ;;
  when isMember
    (throw (TRPCError "User is already a member of this workspace"
                      CONFLICT)) ;;;
  user <- userRepo.getById (a_userId input) ;;
  user <- orThrow user (TRPCError "User not found" NOT_FOUND) ;;
  create env
    (mkMemberInput (Some (u_id user)) (u_email user) (l_workspaceId invite)
                   (l_createdBy invite) (l_role invite) active) ;;;
  markInviteLinkAsUsed env (l_id invite) (Some (a_userId input)) ;;;
  ret (mkAcceptInviteLinkOutput true (Some (w_publicId workspace))
                                (Some (w_slug workspace))).

(** [getInviteInfo]: the query of lines 455-486. *)
Definition getInviteInfo (code : string) : M InviteInfo :=
  invite <- getInviteLinkByCode code ;;
  invite <- orThrow invite (TRPCError "Invalid invite link" NOT_FOUND) ;;
  workspace <- workspaceRepo.getById (l_workspaceId invite) ;;
  workspace <- orThrow workspace
    (TRPCError "Workspace not found" NOT_FOUND) ;;
  inviter <- userRepo.getById (l_createdBy invite) ;;
  now <- newDate env ;;
  let isExpired := l_expiresAt invite <? now in
  ret (mkInviteInfo (w_name workspace) (w_slug workspace)
         (match inviter with
          | Some u => if truthy (u_name u) then u_name u else None
          | None => None
          end)
         (l_expiresAt invite) isExpired (l_isUsed invite)).

(** [getInviteLinks]: the query of lines 513-552. *)
Definition getInviteLinks (ctx_user : option string)
    (workspacePublicId : string) : M (list InviteLinkItem) :=
  userId <- requireUser ctx_user ;;
  workspace <- workspaceRepo.getByPublicId workspacePublicId ;;
  workspace <- orThrow workspace
    (TRPCError ("Workspace with public ID " ^^ workspacePublicId
                ^^ " not found") NOT_FOUND) ;;
  assertUserInWorkspace userId (w_id workspace) "admin" ;;;
  inviteLinks <- getInviteLinksByWorkspaceId (w_id workspace) false ;;
  now <- newDate env ;;
  ret (map (fun link =>
              mkInviteLinkItem (l_id link) (l_inviteCode link) (l_role link)
                               (l_createdAt link) (l_expiresAt link))
           (filter (fun link => now <? l_expiresAt link) inviteLinks)).

(** [deleteInviteLink]: the mutation of lines 573-603. *)
Definition deleteInviteLink (ctx_user : option string) (inviteLinkId : Z)
    : M Success :=
  userId <- requireUser ctx_user ;;
  inviteLink <- getInviteLinkByCode (toString inviteLinkId) ;;
  inviteLink <- orThrow inviteLink
    (TRPCError "Invite link not found" NOT_FOUND) ;;
  assertUserInWorkspace userId (l_workspaceId inviteLink) "admin" ;;;
  memberRepo.deleteInviteLink inviteLinkId ;;;
  ret (mkSuccess true).

End Procedures.

End memberRouter.

(** ** Running a procedure *)

Import memberRepo memberRouter.

Definition returns {A} (c : M A) (w : World) (a : A) : Prop :=
  fst (c w) = Ok a.

Definition throws {A} (c : M A) (w : World) (e : Exn) : Prop :=
  fst (c w) = Thrown e.

Definition after {A} (c : M A) (w : World) : World := snd (c w).

(** The events a run adds to the trace. *)
Definition emitted {A} (c : M A) (w : World) (evs : list Event) : Prop :=
  trace (after c w) = trace w ++ evs.

(** The seats the billing provider counts for a subscription, as far as the
    trace moved them: the sum of the adjustments that went through. *)
Fixpoint seatCount (stripeSubscriptionId : string) (evs : list Event) : Z :=
  match evs with
  | [] => 0
  | SeatsUpdated sid delta true :: evs =>
      (if sid == stripeSubscriptionId then delta else 0)
      + seatCount stripeSubscriptionId evs
  | _ :: evs => seatCount stripeSubscriptionId evs
  end.

(** A link passes the validity check of redemption. *)
Definition redeemable (now : Date) (l : InviteLink) : bool :=
  negb (l_isUsed l) && (now <=? l_expiresAt l).

(** The primary key of [workspace_member], and its sequence staying ahead
    of the keys in use. *)
Definition member_pk (d : Db) : Prop :=
  NoDup (map m_id (workspaceMembers d)).

Definition memberSeq_fresh (d : Db) : Prop :=
  Forall (fun m => m_id m < memberSeq d) (workspaceMembers d).

(** ** Rows, errors and effects the properties speak of *)

Definition invalidLink : Exn :=
  TRPCError "Invalid or expired invite link" BAD_REQUEST.

(** The member row a redemption inserts. *)
Definition redeemedMember (env : Env) (w : World) (invite : InviteLink)
    (user : User) : Member :=
  mkMember (memberSeq (db w)) (entropy env (draws w)) (u_email user)
           (Some (u_id user)) (l_workspaceId invite) (l_createdBy invite)
           (l_role invite) active None None.

(** What [invite] does once the billing branch is through: lines 108-148. *)
Definition invite_rest (env : Env) (userId : string) (input : InviteInput)
    (workspace : Workspace) : M MemberRef :=
  existingUser <- userRepo.getByEmail (i_email input) ;;
  invite <- create env
    (mkMemberInput (option_map u_id existingUser) (i_email input)
                   (w_id workspace) userId "member" invited) ;;
  invite <- orThrow invite
    (TRPCError ("Unable to invite user with email " ^^ i_email input)
               INTERNAL_SERVER_ERROR) ;;
  status <- signInMagicLink env (i_email input)
    ("/boards?type=invite&memberPublicId=" ^^ publicId invite) ;;
  if negb status then
    console_error "Failed to send magic link invitation:" ;;;
    deletedAt <- newDate env ;;
    softDelete (id invite) deletedAt userId ;;;
    throw (TRPCError ("Failed to send magic link invitation to user with email "
                      ^^ i_email input ^^ ".")
                     INTERNAL_SERVER_ERROR)
  else ret invite.

(** The row [invite] inserts, and the callback it sends. *)
Definition invitedMember (env : Env) (w : World) (userId : string)
    (input : InviteInput) (workspace : Workspace) : Member :=
  mkMember (memberSeq (db w)) (entropy env (draws w)) (i_email input)
           (option_map u_id
              (find (fun u => u_email u == i_email input) (users (db w))))
           (w_id workspace) userId "member" invited None None.

Definition inviteCallback (env : Env) (w : World) : string :=
  "/boards?type=invite&memberPublicId=" ^^ entropy env (draws w).

Definition dispatchFailed (input : InviteInput) : Exn :=
  TRPCError ("Failed to send magic link invitation to user with email "
             ^^ i_email input ^^ ".") INTERNAL_SERVER_ERROR.

Definition seatsFailed : Exn :=
  TRPCError "Failed to update subscription for the new member."
            INTERNAL_SERVER_ERROR.

(** The events of a dispatch that failed and was compensated. *)
Definition compensation (env : Env) (w : World) (input : InviteInput)
    : list Event :=
  [MemberInserted (memberSeq (db w));
   MagicLinkSent (i_email input) (inviteCallback env w) false;
   ConsoleError "Failed to send magic link invitation:";
   MemberUpdated (memberSeq (db w))].

(** ** What a run may do to the world *)

(** A run keeps a relation when the world it ends in, thrown or not, is
    related to the world it started in. *)
Definition keeps (R : World -> World -> Prop) {A} (c : M A) : Prop :=
  forall w, R w (after c w).

(** A relation that runs can be chained along. *)
Record Chains (R : World -> World -> Prop) : Prop := mkChains {
  chains_refl : forall w, R w w;
  chains_trans : forall a b c, R a b -> R b c -> R a c
}.

(** A member row is as it was, or it was live and has been soft-deleted. *)
Definition softDeleted_or_same (r r' : Member) : Prop :=
  r' = r
  \/ (m_deletedAt r = None /\ exists t u, r' = softDelete_set t u r).

(** The member table grows at its end, and the rows it had are only ever
    soft-deleted. *)
Definition members_evolve (w w' : World) : Prop :=
  exists kept new,
    workspaceMembers (db w') = kept ++ new
    /\ Forall2 softDeleted_or_same (workspaceMembers (db w)) kept.

(** The tables the router only reads. *)
Definition directory_kept (w w' : World) : Prop :=
  workspaces (db w') = workspaces (db w)
  /\ users (db w') = users (db w)
  /\ subscriptions (db w') = subscriptions (db w).

Definition members_kept (w w' : World) : Prop :=
  workspaceMembers (db w') = workspaceMembers (db w)
  /\ memberSeq (db w') = memberSeq (db w).

Definition links_kept (w w' : World) : Prop :=
  workspaceInviteLinks (db w') = workspaceInviteLinks (db w)
  /\ inviteLinkSeq (db w') = inviteLinkSeq (db w).

(** The primary key of [workspace_invite_link] and its sequence. *)
Definition link_pk (d : Db) : Prop :=
  NoDup (map l_id (workspaceInviteLinks d)).

Definition inviteLinkSeq_fresh (d : Db) : Prop :=
  Forall (fun l => l_id l < inviteLinkSeq d) (workspaceInviteLinks d).

Definition store_wf (d : Db) : Prop :=
  member_pk d /\ memberSeq_fresh d /\ link_pk d /\ inviteLinkSeq_fresh d.

Definition wf_kept (w w' : World) : Prop :=
  store_wf (db w) -> store_wf (db w').

(** The events a run adds all satisfy [P]. *)
Definition emits_only (P : Event -> Prop) (w w' : World) : Prop :=
  exists evs, trace w' = trace w ++ evs /\ Forall P evs.

(** An event that is a write to the store or a log line: no call to the
    billing provider, no message sent. *)
Definition internalEvent (e : Event) : Prop :=
  match e with
  | SeatsUpdated _ _ _ | MagicLinkSent _ _ _ => False
  | _ => True
  end.

Definition notBilling (e : Event) : Prop :=
  match e with
  | SeatsUpdated _ _ _ => False
  | _ => True
  end.

(** Every call to the billing provider moves the seats by [delta]. *)
Definition seatsMovedBy (delta : Z) (e : Event) : Prop :=
  match e with
  | SeatsUpdated _ d _ => d = delta
  | _ => True
  end.

(** The cloud branch of [delete], lines 214-241, as the procedure has it
    inline: the seat decrement, best effort. *)
Definition delete_billing (env : Env) (workspace : Workspace) : M unit :=
  when (isCloud env)
    (subscriptions <- subscriptionRepo.getByReferenceId
                        (w_publicId workspace) ;;
     let activeTeamSubscription :=
       getSubscriptionByPlan subscriptions "team" in
     let unlimitedSeats := hasUnlimitedSeats subscriptions in
     match stripeSubscriptionIdOf activeTeamSubscription with
     | Some stripeSubscriptionId =>
         when (negb (stripeSubscriptionId == EmptyString)
               && negb unlimitedSeats)
           (try_catch
              (updateSubscriptionSeats env stripeSubscriptionId (-1))
              (fun error =>
                 console_error
                   "Failed to decrease Stripe subscription seats:"))
     | None => ret tt
     end).

(** The world once [delete] has soft-deleted the row it found. *)
Definition removed (env : Env) (w : World) (userId : string)
    (member : Member) : World :=
  mkWorld (mkDb (update_where (softDelete_where (m_id member))
                              (softDelete_set (clock env (ticks w)) userId)
                              (workspaceMembers (db w)))
                (workspaceInviteLinks (db w)) (workspaces (db w))
                (users (db w)) (subscriptions (db w))
                (memberSeq (db w)) (inviteLinkSeq (db w)))
          (S (ticks w)) (draws w)
          (trace w ++ [MemberUpdated (m_id member)]).

(** A link as [getInviteLinks] shows it. *)
Definition listed (l : InviteLink) : InviteLinkItem :=
  mkInviteLinkItem (l_id l) (l_inviteCode l) (l_role l) (l_createdAt l)
                   (l_expiresAt l).

(** The link a generate-invite-link request stores. *)
Definition generatedLink (env : Env) (w : World) (adminId : string)
    (input : GenerateInviteLinkInput) (workspace : Workspace) : InviteLink :=
  mkInviteLink (inviteLinkSeq (db w)) (w_id workspace)
               (entropy env (draws w)) (g_role input) false adminId
               (clock env (S (ticks w)))
               (setDate_plus env (clock env (ticks w)) (g_expiresIn input))
               None None.

(** ** A workspace to run the procedures on *)

Module Acme.

Definition acme : Workspace :=
  mkWorkspace 1 "ws_acme_000001" "acme" "Acme".

Definition alice : User := mkUser "u-alice" "alice@acme.test" (Some "Alice").
Definition bob : User := mkUser "u-bob" "bob@example.com" (Some "Bob").

(** Alice administers the workspace; Carol was removed at time 500; Dave is
    a member. *)
Definition aliceMember : Member :=
  mkMember 1 "mem_alice_0001" "alice@acme.test" (Some "u-alice") 1 "u-alice"
           "admin" active None None.

Definition carolMember : Member :=
  mkMember 2 "mem_carol_0002" "carol@example.com" (Some "u-carol") 1
           "u-alice" "member" active (Some 500) (Some "u-alice").

Definition daveMember : Member :=
  mkMember 3 "mem_dave_00003" "dave@example.com" (Some "u-dave") 1 "u-alice"
           "member" active None None.

(** An unused link, a link Carol used, and a link whose code is a number. *)
Definition link1 : InviteLink :=
  mkInviteLink 1 1 "AbCdEfGhIjKl" "member" false "u-alice" 100 900000 None
               None.

Definition link2 : InviteLink :=
  mkInviteLink 2 1 "MnOpQrStUvWx" "member" true "u-alice" 100 900000
               (Some 400) (Some "u-carol").

Definition link3 : InviteLink :=
  mkInviteLink 3 1 "100000000007" "admin" false "u-alice" 100 900000 None
               None.

Definition teamPlan : Subscription :=
  mkSubscription "ws_acme_000001" "team" true (Some "sub_team_1") false.

(** A team plan that was never attached to a Stripe subscription. *)
Definition detachedPlan : Subscription :=
  mkSubscription "ws_acme_000001" "team" true None false.

Definition store (plans : list Subscription) : Db :=
  mkDb [aliceMember; carolMember; daveMember] [link1; link2; link3] [acme]
       [alice; bob] plans 4 4.

Definition world (plans : list Subscription) : World :=
  mkWorld (store plans) 0 0 [].

(** The hosted deployment or a self-hosted one, with the billing provider
    and the mailer answering as told, on a host whose local time is UTC. *)
Definition env (cloud stripe mail : bool) : Env :=
  mkEnv (if cloud then Some "cloud" else None) None
        (fun n => 1000 + Z.of_nat n)
        (fun n => "uid_" ^^ toString (Z.of_nat n))
        (fun _ _ => stripe) (fun _ _ => mail)
        (fun _ _ => 0).

(** A zone two hours ahead of UTC that falls back to one hour ahead half a
    day after the epoch, and the self-hosted deployment on a host in it. *)
Definition fallBack (t : Z) (isUTC : bool) : Z :=
  if t <? (if isUTC then 43200000 else 50400000) then 7200000 else 3600000.

Definition envFallBack : Env :=
  mkEnv None None (fun n => 1000 + Z.of_nat n)
        (fun n => "uid_" ^^ toString (Z.of_nat n))
        (fun _ _ => true) (fun _ _ => true) fallBack.

(** Alice invites Eve to Acme. *)
Definition inviteEve : InviteInput :=
  mkInviteInput "eve@example.com" "ws_acme_000001".

Definition eveRow (deletedAt : option Date) (deletedBy : option string)
    : Member :=
  mkMember 4 "uid_0" "eve@example.com" None 1 "u-alice" "member" invited
           deletedAt deletedBy.

End Acme.

(** ** A second workspace *)

Module Globex.

Definition globex : Workspace :=
  mkWorkspace 2 "ws_globex_0002" "globex" "Globex".

(** Erin is a member of Globex, not of Acme. *)
Definition erinMember : Member :=
  mkMember 4 "mem_erin_00004" "erin@example.com" (Some "u-erin") 2 "u-gina"
           "member" active None None.

Definition store (plans : list Subscription) : Db :=
  mkDb [Acme.aliceMember; Acme.carolMember; Acme.daveMember; erinMember]
       [Acme.link1; Acme.link2; Acme.link3] [Acme.acme; globex]
       [Acme.alice; Acme.bob] plans 5 4.

Definition world (plans : list Subscription) : World :=
  mkWorld (store plans) 0 0 [].

End Globex.

(** ** Stepping through a run *)

Arguments String.append : simpl never.

(** Unfold the monad and the store calls, and project the worlds built on
    the way; what is left is stuck on a lookup or on a test. *)
Ltac run :=
  cbv beta iota zeta delta
    [bind ret throw try_catch orThrow when getDb putDb emit newDate draw
     nanoid generateUID console_error updateSubscriptionSeats
     signInMagicLink
     memberRepo.create memberRepo.getByPublicId memberRepo.softDelete
     memberRepo.createInviteLink memberRepo.getInviteLinkByCode
     memberRepo.markInviteLinkAsUsed memberRepo.deleteInviteLink
     workspaceRepo.getByPublicId workspaceRepo.getByPublicIdWithMembers
     workspaceRepo.getById workspaceRepo.isUserInWorkspace
     userRepo.getByEmail userRepo.getById
     subscriptionRepo.getByReferenceId];
  cbn [fst snd db ticks draws trace hd_error map negb andb orb
       memberRepo.id memberRepo.publicId memberRepo.returningRef
       memberRepo.returningLink memberRepo.r_id memberRepo.r_inviteCode
       memberRepo.r_expiresAt
       memberRepo.userId memberRepo.email memberRepo.workspaceId
       memberRepo.createdBy memberRepo.role memberRepo.status
       memberRepo.il_workspaceId memberRepo.il_inviteCode
       memberRepo.il_createdBy memberRepo.il_role memberRepo.il_expiresAt
       m_id m_publicId l_id l_inviteCode l_expiresAt
       set_workspaceMembers set_workspaceInviteLinks
       workspaceMembers workspaceInviteLinks workspaces users subscriptions
       memberSeq inviteLinkSeq].

Lemma bind_Ok {A B} (c : M A) (k : A -> M B) w a w' :
  c w = (Ok a, w') -> bind c k w = k a w'.
Proof. intros H. unfold bind. now rewrite H. Qed.

Lemma bind_Thrown {A B} (c : M A) (k : A -> M B) w e w' :
  c w = (Thrown e, w') -> bind c k w = (Thrown e, w').
Proof. intros H. unfold bind. now rewrite H. Qed.

Lemma assertUserInWorkspace_Ok userId workspaceId role w :
  returns (assertUserInWorkspace userId workspaceId role) w tt ->
  assertUserInWorkspace userId workspaceId role w = (Ok tt, w).
Proof.
  unfold returns, assertUserInWorkspace. cbn.
  destruct (existsb _ _); cbn; [reflexivity | discriminate].
Qed.

Lemma requireUser_Ok userId w :
  userId <> EmptyString ->
  memberRouter.requireUser (Some userId) w = (Ok userId, w).
Proof.
  intros H. apply String.eqb_neq in H. unfold memberRouter.requireUser.
  now rewrite H.
Qed.

Lemma Db_eta d :
  mkDb (workspaceMembers d) (workspaceInviteLinks d) (workspaces d) (users d)
       (subscriptions d) (memberSeq d) (inviteLinkSeq d) = d.
Proof. now destruct d. Qed.

(** *** Conditional updates on a table *)

Section Tables.

Context {A : Type}.
Variables (cond : A -> bool) (set : A -> A).

Lemma update_where_none (rows : list A) :
  (forall r, In r rows -> cond r = false) ->
  update_where cond set rows = rows.
Proof.
  induction rows as [|r rows IH]; intros H; cbn; [reflexivity|].
  rewrite (H r (or_introl eq_refl)). f_equal. apply IH.
  intros r' Hr'. apply H. now right.
Qed.

Lemma affected_none (rows : list A) :
  (forall r, In r rows -> cond r = false) -> affected cond rows = [].
Proof.
  induction rows as [|r rows IH]; intros H; cbn; [reflexivity|].
  rewrite (H r (or_introl eq_refl)). apply IH.
  intros r' Hr'. apply H. now right.
Qed.

Lemma affected_nil_iff (rows : list A) :
  affected cond rows = [] <-> (forall r, In r rows -> cond r = false).
Proof.
  split; [|apply affected_none].
  intros H r Hr. destruct (cond r) eqn:E; [|reflexivity].
  assert (Hin : In r (affected cond rows)) by (apply filter_In; auto).
  rewrite H in Hin. destruct Hin.
Qed.

Lemma update_where_app (xs ys : list A) :
  update_where cond set (xs ++ ys)
  = update_where cond set xs ++ update_where cond set ys.
Proof. apply map_app. Qed.

Lemma update_where_pointwise (rows : list A) :
  Forall2 (fun r r' => r' = if cond r then set r else r)
          rows (update_where cond set rows).
Proof. induction rows; cbn; constructor; auto. Qed.

(** Looking a row up by a column the update does not touch finds the same
    row, updated if the condition holds of it. *)
Lemma find_update_where (p : A -> bool) (rows : list A) (r : A) :
  (forall x, p (set x) = p x) ->
  find p rows = Some r ->
  find p (update_where cond set rows)
  = Some (if cond r then set r else r).
Proof.
  intros Hp. induction rows as [|x rows IH]; cbn; [discriminate|].
  destruct (cond x) eqn:Ec.
  - rewrite Hp. destruct (p x) eqn:Ep.
    + intros [= <-]. now rewrite Ec.
    + exact IH.
  - destruct (p x) eqn:Ep.
    + intros [= <-]. now rewrite Ec.
    + exact IH.
Qed.

End Tables.

Lemma NoDup_map_eq {A B} (f : A -> B) (l : list A) (a b : A) :
  NoDup (map f l) -> In a l -> In b l -> f a = f b -> a = b.
Proof.
  induction l as [|x l IH]; cbn; [tauto|].
  intros Hnd [<-|Ha] [<-|Hb] E; inversion Hnd as [|? ? Hx Hl]; subst.
  - reflexivity.
  - exfalso. apply Hx. rewrite E. now apply in_map.
  - exfalso. apply Hx. rewrite <- E. now apply in_map.
  - now apply IH.
Qed.

(** * Properties *)

(** ** Deleting an invite link *)

(** [deleteInviteLink] resolves the link with [getInviteLinkByCode] on the
    decimal rendering of the id: the row it checks is the one whose invite
    code reads as that number, whatever its id. *)
Lemma deleteInviteLink_lookup userId inviteLinkId w :
  userId <> EmptyString ->
  find (fun l => l_inviteCode l == toString inviteLinkId)
       (workspaceInviteLinks (db w)) = None ->
  memberRouter.deleteInviteLink (Some userId) inviteLinkId w
  = (Thrown (TRPCError "Invite link not found" NOT_FOUND), w).
Proof.
  intros Hu Hfind. unfold memberRouter.deleteInviteLink.
  rewrite (bind_Ok _ _ _ _ _ (requireUser_Ok _ w Hu)).
  cbn. now rewrite Hfind.
Qed.

(** C1. For a stored link identified by its id, [deleteInviteLink] called by
    an admin of the link's workspace should delete the row and succeed, and
    an id without a row should give NOT_FOUND.  On the Acme store the
    procedure does neither: Alice, an admin, asks to delete link 1, which
    exists, and gets NOT_FOUND with the row still stored; she asks to delete
    link 100000000007, which does not exist, and gets success, because
    another link's code reads "100000000007". *)
Theorem deleteInviteLink_by_id_misses :
  let w := Acme.world [] in
  (In Acme.link1 (workspaceInviteLinks (db w))
   /\ l_id Acme.link1 = 1
   /\ returns (assertUserInWorkspace "u-alice" (l_workspaceId Acme.link1)
                                     "admin") w tt
   /\ memberRouter.deleteInviteLink (Some "u-alice") 1 w
      = (Thrown (TRPCError "Invite link not found" NOT_FOUND), w))
  /\ (existsb (fun l => l_id l =? 100000000007)
              (workspaceInviteLinks (db w)) = false
      /\ returns (memberRouter.deleteInviteLink (Some "u-alice") 100000000007) w
                 (mkSuccess true)
      /\ db (after (memberRouter.deleteInviteLink (Some "u-alice") 100000000007) w)
         = db w).
Proof.
  cbv zeta. repeat split; try reflexivity. now left.
Qed.

(** ** Removing a member *)

(** A row found by its public id, once soft-deleted, is matched by no
    soft-delete on its id, as long as ids are a key. *)
Lemma softDelete_where_deleted d publicId m :
  member_pk d ->
  find (fun m => m_publicId m == publicId) (workspaceMembers d) = Some m ->
  m_deletedAt m <> None ->
  forall r, In r (workspaceMembers d) -> softDelete_where (m_id m) r = false.
Proof.
  intros Hpk Hfind Hdel r Hr. unfold softDelete_where.
  destruct (Z.eqb_spec (m_id r) (m_id m)) as [E|]; [|reflexivity].
  apply find_some in Hfind as [Hm _].
  rewrite (NoDup_map_eq m_id _ r m Hpk Hr Hm E).
  destruct (m_deletedAt m); [reflexivity | congruence].
Qed.

(** C2, as the router has it.  Removing a member whose row is already
    soft-deleted fails, with INTERNAL_SERVER_ERROR: the row is still found
    by its public id, the conditional soft-delete then matches nothing, and
    the router answers the empty result with "Failed to delete member".
    The store is left as it was. *)
Theorem delete_already_deleted env w userId input workspace member :
  userId <> EmptyString ->
  returns (workspaceRepo.getByPublicId (d_workspacePublicId input)) w
          (Some workspace) ->
  returns (assertUserInWorkspace userId (w_id workspace) "admin") w tt ->
  returns (getByPublicId (d_memberPublicId input)) w (Some member) ->
  m_deletedAt member <> None ->
  member_pk (db w) ->
  throws (delete env (Some userId) input) w
         (TRPCError ("Failed to delete member with public ID "
                     ^^ d_memberPublicId input) INTERNAL_SERVER_ERROR)
  /\ db (after (delete env (Some userId) input) w) = db w.
Proof.
  intros Hu Hws Hadm Hm Hdel Hpk.
  unfold returns in Hws, Hm. cbn in Hws, Hm.
  injection Hws as Hws. injection Hm as Hm.
  pose proof (softDelete_where_deleted _ _ _ Hpk Hm Hdel) as Hnone.
  unfold throws, after, delete.
  rewrite (bind_Ok _ _ _ _ _ (requireUser_Ok _ w Hu)).
  cbn. rewrite Hws. cbn.
  rewrite (bind_Ok _ _ _ _ _ (assertUserInWorkspace_Ok _ _ _ _ Hadm)).
  cbn. rewrite Hm. cbn.
  rewrite (affected_none _ _ Hnone), (update_where_none _ _ _ Hnone).
  cbn. split; [reflexivity|]. unfold set_workspaceMembers. apply Db_eta.
Qed.

Lemma delete_already_deleted_witness :
  throws (delete (Acme.env false true true) (Some "u-alice")
                 (mkDeleteInput "ws_acme_000001" "mem_carol_0002"))
         (Acme.world [])
         (TRPCError "Failed to delete member with public ID mem_carol_0002"
                    INTERNAL_SERVER_ERROR)
  /\ db (after (delete (Acme.env false true true) (Some "u-alice")
                       (mkDeleteInput "ws_acme_000001" "mem_carol_0002"))
               (Acme.world []))
     = db (Acme.world []).
Proof.
  apply (delete_already_deleted (Acme.env false true true) (Acme.world [])
           "u-alice" (mkDeleteInput "ws_acme_000001" "mem_carol_0002")
           Acme.acme Acme.carolMember).
  - discriminate.
  - reflexivity.
  - reflexivity.
  - reflexivity.
  - discriminate.
  - unfold member_pk. cbn. repeat constructor; cbn; intuition discriminate.
Defined.

(** C2 as the specification words it does not hold: the failure is not a
    NOT_FOUND.  Carol's row is soft-deleted, Alice is an admin, and removing
    Carol again throws no NOT_FOUND error. *)
Lemma delete_already_deleted_not_NOT_FOUND :
  let e := Acme.env false true true in
  let w := Acme.world [] in
  let input := mkDeleteInput "ws_acme_000001" "mem_carol_0002" in
  returns (getByPublicId (d_memberPublicId input)) w (Some Acme.carolMember)
  /\ m_deletedAt Acme.carolMember = Some 500
  /\ returns (workspaceRepo.getByPublicId (d_workspacePublicId input)) w
             (Some Acme.acme)
  /\ returns (assertUserInWorkspace "u-alice" (w_id Acme.acme) "admin") w tt
  /\ forall message,
       ~ throws (delete e (Some "u-alice") input) w
                (TRPCError message NOT_FOUND).
Proof.
  cbv zeta. repeat split. intros message H. vm_compute in H. discriminate.
Qed.

(** ** The two lifecycle writes of the store *)

Lemma softDelete_run memberId deletedAt deletedBy w :
  softDelete memberId deletedAt deletedBy w
  = (Ok (hd_error (map returningRef
                       (affected (softDelete_where memberId)
                                 (workspaceMembers (db w))))),
     mkWorld (set_workspaceMembers (db w)
                (update_where (softDelete_where memberId)
                              (softDelete_set deletedAt deletedBy)
                              (workspaceMembers (db w)))
                (memberSeq (db w)))
             (ticks w) (draws w) (trace w ++ [MemberUpdated memberId])).
Proof. reflexivity. Qed.

Lemma markInviteLinkAsUsed_run env inviteLinkId userId w :
  markInviteLinkAsUsed env inviteLinkId userId w
  = (Ok (List.length (affected (markUsed_where inviteLinkId)
                               (workspaceInviteLinks (db w)))),
     mkWorld (set_workspaceInviteLinks (db w)
                (update_where (markUsed_where inviteLinkId)
                              (markUsed_set (clock env (ticks w)) userId)
                              (workspaceInviteLinks (db w)))
                (inviteLinkSeq (db w)))
             (S (ticks w)) (draws w)
             (trace w ++ [InviteLinkUpdated inviteLinkId])).
Proof. reflexivity. Qed.

Lemma hd_error_map_None {A B} (f : A -> B) (l : list A) :
  hd_error (map f l) = None <-> l = [].
Proof. destruct l; cbn; split; congruence. Qed.

(** C3, as the repository has it.  [softDelete] is a conditional update: row
    by row, it rewrites exactly the rows with the given id whose [deletedAt]
    is still null, and it returns nothing exactly when no such row exists,
    in which case the table is unchanged.  [markInviteLinkAsUsed] is keyed
    by the id alone: row by row, it marks every row with that id, used
    before or not, and it affects no row exactly when no row has the id. *)
Theorem lifecycle_writes env w :
  (forall memberId deletedAt deletedBy,
     let run := softDelete memberId deletedAt deletedBy in
     Forall2 (fun r r' =>
                r' = if (m_id r =? memberId) && isNull (m_deletedAt r)
                     then softDelete_set deletedAt deletedBy r else r)
             (workspaceMembers (db w)) (workspaceMembers (db (after run w)))
     /\ (returns run w None <->
         forall r, In r (workspaceMembers (db w)) ->
                   m_id r = memberId -> m_deletedAt r <> None)
     /\ (returns run w None -> db (after run w) = db w))
  /\ (forall inviteLinkId userId,
        let run := markInviteLinkAsUsed env inviteLinkId userId in
        Forall2 (fun l l' =>
                   l' = if l_id l =? inviteLinkId
                        then markUsed_set (clock env (ticks w)) userId l
                        else l)
                (workspaceInviteLinks (db w))
                (workspaceInviteLinks (db (after run w)))
        /\ (returns run w 0%nat <->
            forall l, In l (workspaceInviteLinks (db w)) ->
                      l_id l <> inviteLinkId)).
Proof.
  split.
  - intros memberId deletedAt deletedBy run. subst run.
    unfold returns, after. rewrite softDelete_run. cbn [fst snd db].
    assert (Hnone :
      (forall r, In r (workspaceMembers (db w)) ->
                 softDelete_where memberId r = false)
      <-> (forall r, In r (workspaceMembers (db w)) ->
                     m_id r = memberId -> m_deletedAt r <> None)).
    { unfold softDelete_where. split; intros H r Hr.
      - intros E. specialize (H r Hr). rewrite E, Z.eqb_refl in H.
        destruct (m_deletedAt r); [discriminate | discriminate H].
      - specialize (H r Hr). destruct (Z.eqb_spec (m_id r) memberId) as [E|];
          [|reflexivity].
        specialize (H E). destruct (m_deletedAt r); [reflexivity | congruence]. }
    split; [|split].
    + apply update_where_pointwise.
    + rewrite <- Hnone, <- affected_nil_iff,
        <- (hd_error_map_None returningRef).
      split; congruence.
    + intros H. assert (H' : hd_error (map returningRef
                (affected (softDelete_where memberId)
                          (workspaceMembers (db w)))) = None) by congruence.
      apply hd_error_map_None in H'.
      pose proof (proj1 (affected_nil_iff _ _) H') as Hrows.
      unfold set_workspaceMembers. rewrite (update_where_none _ _ _ Hrows).
      apply Db_eta.
  - intros inviteLinkId userId run. subst run.
    unfold returns, after. rewrite markInviteLinkAsUsed_run. cbn [fst snd db].
    split.
    + apply update_where_pointwise.
    + assert (Hlen : forall n : nat, @Ok nat n = Ok 0%nat <-> n = 0%nat)
        by (intros n; split; congruence).
      rewrite Hlen, length_zero_iff_nil, affected_nil_iff.
      unfold markUsed_where. split; intros H l Hl.
      * specialize (H l Hl). now apply Z.eqb_neq.
      * apply Z.eqb_neq. now apply H.
Qed.

Lemma lifecycle_writes_witness :
  let w := Acme.world [] in
  let again := softDelete 2 1000 "u-alice" in
  returns again w None /\ db (after again w) = db w.
Proof.
  cbv zeta.
  destruct (proj1 (lifecycle_writes (Acme.env false true true)
                                    (Acme.world []))
                  2 1000 "u-alice") as (_ & _ & Hsame).
  split; [reflexivity | apply Hsame; reflexivity].
Defined.

(** C3 as the specification words it does not hold of
    [markInviteLinkAsUsed]: a link that is already used is updated again.
    Link 2 was used by Carol; marking it used for Bob affects one row, and
    the stored row now names Bob and the new time. *)
Lemma markInviteLinkAsUsed_rewrites_used_row :
  let e := Acme.env false true true in
  let w := Acme.world [] in
  let run := markInviteLinkAsUsed e 2 (Some "u-bob") in
  returns (getInviteLinkByCode "MnOpQrStUvWx") w (Some Acme.link2)
  /\ l_isUsed Acme.link2 = true
  /\ l_usedBy Acme.link2 = Some "u-carol"
  /\ returns run w 1%nat
  /\ returns (getInviteLinkByCode "MnOpQrStUvWx") (after run w)
             (Some (mkInviteLink 2 1 "MnOpQrStUvWx" "member" true "u-alice"
                                 100 900000 (Some 1000) (Some "u-bob"))).
Proof. cbv zeta. repeat split. Qed.

(** ** Redeeming an invite link *)

(** The run of a redemption whose checks all pass. *)
Lemma acceptInviteLink_run env w input invite workspace user :
  returns (getInviteLinkByCode (a_inviteCode input)) w (Some invite) ->
  redeemable (clock env (ticks w)) invite = true ->
  returns (workspaceRepo.getById (l_workspaceId invite)) w (Some workspace) ->
  returns (workspaceRepo.isUserInWorkspace (a_userId input)
                                           (l_workspaceId invite)) w false ->
  returns (userRepo.getById (a_userId input)) w (Some user) ->
  acceptInviteLink env input w
  = (Ok (mkAcceptInviteLinkOutput true (Some (w_publicId workspace))
                                  (Some (w_slug workspace))),
     mkWorld
       (mkDb (workspaceMembers (db w) ++ [redeemedMember env w invite user])
             (update_where (markUsed_where (l_id invite))
                           (markUsed_set (clock env (S (ticks w)))
                                         (Some (a_userId input)))
                           (workspaceInviteLinks (db w)))
             (workspaces (db w)) (users (db w)) (subscriptions (db w))
             (memberSeq (db w) + 1) (inviteLinkSeq (db w)))
       (S (S (ticks w))) (S (draws w))
       (trace w ++ [MemberInserted (memberSeq (db w));
                    InviteLinkUpdated (l_id invite)])).
Proof.
  unfold returns, redeemable. cbn.
  intros [= Hl] Hok [= Hws] [= Hmem] [= Hu].
  apply andb_true_iff in Hok as [Hused Hexp].
  apply negb_true_iff in Hused. rewrite Z.leb_antisym in Hexp.
  apply negb_true_iff in Hexp.
  unfold acceptInviteLink. run. rewrite Hl, Hused. run. rewrite Hexp. run.
  rewrite Hws. run. rewrite Hmem. run. rewrite Hu. run.
  rewrite <- app_assoc. reflexivity.
Qed.

Lemma find_by_code_marked (code : string) (links : list InviteLink)
    (invite : InviteLink) usedAt userId :
  find (fun l => l_inviteCode l == code) links = Some invite ->
  find (fun l => l_inviteCode l == code)
       (update_where (markUsed_where (l_id invite))
                     (markUsed_set usedAt userId) links)
  = Some (markUsed_set usedAt userId invite).
Proof.
  intros H.
  rewrite (find_update_where (markUsed_where (l_id invite))
             (markUsed_set usedAt userId)
             (fun l => l_inviteCode l == code) links invite
             (fun _ => eq_refl) H).
  unfold markUsed_where. now rewrite Z.eqb_refl.
Qed.

(** C5. A redemption whose checks pass - the link is found, unused and not
    expired, the workspace and the user exist, the user is not yet a member -
    succeeds with the workspace's public id and slug; it appends one member
    row, [active] from the start, with the link's role and the redeeming
    user's account; and the link, looked up again, is used, with the time
    and the redeemer recorded. *)
Theorem acceptInviteLink_creates_active_member
    env w input invite workspace user :
  returns (getInviteLinkByCode (a_inviteCode input)) w (Some invite) ->
  redeemable (clock env (ticks w)) invite = true ->
  returns (workspaceRepo.getById (l_workspaceId invite)) w (Some workspace) ->
  returns (workspaceRepo.isUserInWorkspace (a_userId input)
                                           (l_workspaceId invite)) w false ->
  returns (userRepo.getById (a_userId input)) w (Some user) ->
  let run := acceptInviteLink env input in
  returns run w
          (mkAcceptInviteLinkOutput true (Some (w_publicId workspace))
                                    (Some (w_slug workspace)))
  /\ workspaceMembers (db (after run w))
     = workspaceMembers (db w)
       ++ [mkMember (memberSeq (db w)) (entropy env (draws w))
                    (u_email user) (Some (a_userId input))
                    (l_workspaceId invite) (l_createdBy invite)
                    (l_role invite) active None None]
  /\ returns (getInviteLinkByCode (a_inviteCode input)) (after run w)
             (Some (mkInviteLink (l_id invite) (l_workspaceId invite)
                                 (l_inviteCode invite) (l_role invite) true
                                 (l_createdBy invite) (l_createdAt invite)
                                 (l_expiresAt invite)
                                 (Some (clock env (S (ticks w))))
                                 (Some (a_userId input)))).
Proof.
  intros Hl Hok Hws Hmem Hu run. subst run.
  unfold returns, after.
  rewrite (acceptInviteLink_run _ _ _ _ _ _ Hl Hok Hws Hmem Hu).
  unfold returns in Hl, Hu. cbn in Hl, Hu.
  injection Hl as Hl. injection Hu as Hu.
  apply find_some in Hu as [_ Hu]. apply String.eqb_eq in Hu.
  cbn. split; [reflexivity|]. split.
  - unfold redeemedMember. now rewrite Hu.
  - now rewrite (find_by_code_marked _ _ _ _ _ Hl).
Qed.

Lemma acceptInviteLink_creates_active_member_witness :
  let e := Acme.env false true true in
  let w := Acme.world [] in
  let run := acceptInviteLink e (mkAcceptInviteLinkInput "AbCdEfGhIjKl"
                                                         "u-bob") in
  returns run w (mkAcceptInviteLinkOutput true (Some "ws_acme_000001")
                                          (Some "acme"))
  /\ workspaceMembers (db (after run w))
     = workspaceMembers (db w)
       ++ [mkMember 4 "uid_0" "bob@example.com" (Some "u-bob") 1 "u-alice"
                    "member" active None None]
  /\ returns (getInviteLinkByCode "AbCdEfGhIjKl") (after run w)
             (Some (mkInviteLink 1 1 "AbCdEfGhIjKl" "member" true "u-alice"
                                 100 900000 (Some 1001) (Some "u-bob"))).
Proof.
  cbv zeta.
  apply (acceptInviteLink_creates_active_member
           (Acme.env false true true) (Acme.world [])
           (mkAcceptInviteLinkInput "AbCdEfGhIjKl" "u-bob")
           Acme.link1 Acme.acme Acme.bob); reflexivity.
Defined.

(** What a redemption does, by the outcome of its validity check. *)
Lemma acceptInviteLink_cases env w input :
  match find (fun l => l_inviteCode l == a_inviteCode input)
             (workspaceInviteLinks (db w)) with
  | None => acceptInviteLink env input w = (Thrown invalidLink, w)
  | Some invite =>
      if redeemable (clock env (ticks w)) invite then
        (exists message code,
            code <> BAD_REQUEST
            /\ throws (acceptInviteLink env input) w (TRPCError message code))
        \/ (exists workspace user,
              returns (workspaceRepo.getById (l_workspaceId invite)) w
                      (Some workspace)
              /\ returns (workspaceRepo.isUserInWorkspace
                            (a_userId input) (l_workspaceId invite)) w false
              /\ returns (userRepo.getById (a_userId input)) w (Some user))
      else throws (acceptInviteLink env input) w invalidLink
  end.
Proof.
  destruct (find _ _) as [invite|] eqn:Hl.
  - unfold redeemable. rewrite Z.leb_antisym.
    destruct (l_isUsed invite) eqn:Hused; cbn [negb andb].
    { unfold throws, acceptInviteLink. run. rewrite Hl, Hused. reflexivity. }
    destruct (l_expiresAt invite <? clock env (ticks w)) eqn:Hexp; cbn [negb].
    { unfold throws, acceptInviteLink. run. rewrite Hl, Hused. run.
      rewrite Hexp. reflexivity. }
    destruct (find (fun w => w_id w =? l_workspaceId invite)
                   (workspaces (db w))) as [workspace|] eqn:Hws.
    2:{ left. exists "Workspace not found", NOT_FOUND.
        split; [discriminate|].
        unfold throws, acceptInviteLink. run. rewrite Hl, Hused. run.
        rewrite Hexp. run. rewrite Hws. reflexivity. }
    destruct (fst (workspaceRepo.isUserInWorkspace
                     (a_userId input) (l_workspaceId invite) w)) eqn:Hmem;
      [|discriminate Hmem].
    cbn in Hmem. injection Hmem as Hmem. destruct a.
    { left. exists "User is already a member of this workspace", CONFLICT.
      split; [discriminate|].
      unfold throws, acceptInviteLink. run. rewrite Hl, Hused. run.
      rewrite Hexp. run. rewrite Hws. run. rewrite Hmem. reflexivity. }
    destruct (find (fun u => u_id u == a_userId input) (users (db w)))
      as [user|] eqn:Hu.
    2:{ left. exists "User not found", NOT_FOUND. split; [discriminate|].
        unfold throws, acceptInviteLink. run. rewrite Hl, Hused. run.
        rewrite Hexp. run. rewrite Hws. run. rewrite Hmem. run.
        rewrite Hu. reflexivity. }
    right. exists workspace, user. unfold returns. cbn.
    now rewrite Hws, Hmem, Hu.
  - unfold acceptInviteLink. run. now rewrite Hl.
Qed.

(** A redemption that succeeds is one whose checks all passed: the
    hypotheses of [acceptInviteLink_run] are met by every successful run. *)
Lemma acceptInviteLink_success_inv env w input out :
  returns (acceptInviteLink env input) w out ->
  exists invite workspace user,
    returns (getInviteLinkByCode (a_inviteCode input)) w (Some invite)
    /\ redeemable (clock env (ticks w)) invite = true
    /\ returns (workspaceRepo.getById (l_workspaceId invite)) w
               (Some workspace)
    /\ returns (workspaceRepo.isUserInWorkspace
                  (a_userId input) (l_workspaceId invite)) w false
    /\ returns (userRepo.getById (a_userId input)) w (Some user).
Proof.
  intros Hout. pose proof (acceptInviteLink_cases env w input) as Hcases.
  unfold returns in Hout.
  destruct (find _ _) as [l|] eqn:Hfind.
  2:{ rewrite Hcases in Hout. discriminate. }
  destruct (redeemable _ l) eqn:Hok.
  2:{ unfold throws in Hcases. congruence. }
  destruct Hcases as [(m & c & _ & Hthrow)|(workspace & user & H)].
  { unfold throws in Hthrow. congruence. }
  exists l, workspace, user. split; [|split; [exact Hok | exact H]].
  unfold returns. cbn. now rewrite Hfind.
Qed.

Lemma redeemable_spec now l :
  redeemable now l = true <-> l_isUsed l = false /\ now <= l_expiresAt l.
Proof.
  unfold redeemable. rewrite andb_true_iff, negb_true_iff, Z.leb_le.
  reflexivity.
Qed.

Lemma redeemable_false now l :
  redeemable now l = false <-> l_isUsed l = true \/ l_expiresAt l < now.
Proof.
  unfold redeemable. rewrite andb_false_iff, negb_false_iff, Z.leb_gt.
  reflexivity.
Qed.

(** A redemption throws BAD_REQUEST exactly when the link is missing or not
    redeemable, and then always the same error. *)
Lemma acceptInviteLink_BAD_REQUEST_iff env w input :
  ((exists message,
       throws (acceptInviteLink env input) w (TRPCError message BAD_REQUEST))
   <-> match find (fun l => l_inviteCode l == a_inviteCode input)
                  (workspaceInviteLinks (db w)) with
       | None => True
       | Some l => redeemable (clock env (ticks w)) l = false
       end)
  /\ (forall message,
         throws (acceptInviteLink env input) w (TRPCError message BAD_REQUEST)
         -> TRPCError message BAD_REQUEST = invalidLink).
Proof.
  pose proof (acceptInviteLink_cases env w input) as Hcases.
  unfold throws in *.
  destruct (find _ _) as [l|] eqn:Hfind.
  - destruct (redeemable _ l) eqn:Hok.
    + assert (Hno : forall message,
                 fst (acceptInviteLink env input w)
                 <> Thrown (TRPCError message BAD_REQUEST)).
      { intros message H. destruct Hcases as [(m & c & Hc & Hthrow)|Hrun].
        - rewrite Hthrow in H. congruence.
        - destruct Hrun as (workspace & user & Hws & Hmem & Hu).
          assert (Hl : returns (getInviteLinkByCode (a_inviteCode input)) w
                               (Some l)).
          { unfold returns. cbn. now rewrite Hfind. }
          rewrite (acceptInviteLink_run _ _ _ _ _ _ Hl Hok Hws Hmem Hu) in H.
          discriminate. }
      split; [split|].
      * intros [message H]. now apply Hno in H.
      * discriminate.
      * intros message H. now apply Hno in H.
    + split; [split; [reflexivity|]|].
      * intros _. now exists "Invalid or expired invite link".
      * intros message H. rewrite Hcases in H. congruence.
  - rewrite Hcases. cbn. split; [split; [reflexivity|]|].
    + intros _. now exists "Invalid or expired invite link".
    + intros message H. congruence.
Qed.

(** C4. A redemption fails with BAD_REQUEST if and only if the link it
    looks up is absent, already used, or past its expiration; put the other
    way, it gets past the validity check if and only if the link exists, is
    unused and the current time is at most [expiresAt].  Whatever the cause,
    the error thrown is the same one.  And once a redemption has succeeded,
    a further attempt with the same code fails with that error. *)
Theorem acceptInviteLink_validity env w input :
  let run := acceptInviteLink env input in
  let found := find (fun l => l_inviteCode l == a_inviteCode input)
                    (workspaceInviteLinks (db w)) in
  let now := clock env (ticks w) in
  ((exists message, throws run w (TRPCError message BAD_REQUEST))
   <-> (found = None
        \/ exists l, found = Some l
                     /\ (l_isUsed l = true \/ l_expiresAt l < now)))
  /\ ((~ exists message, throws run w (TRPCError message BAD_REQUEST))
      <-> exists l, found = Some l /\ l_isUsed l = false
                    /\ now <= l_expiresAt l)
  /\ (forall message,
         throws run w (TRPCError message BAD_REQUEST) ->
         TRPCError message BAD_REQUEST = invalidLink)
  /\ (forall out input',
         returns run w out ->
         a_inviteCode input' = a_inviteCode input ->
         throws (acceptInviteLink env input') (after run w) invalidLink).
Proof.
  intros run found now. subst run.
  destruct (acceptInviteLink_BAD_REQUEST_iff env w input) as [Hiff Hsame].
  fold found now in Hiff.
  split; [|split; [|split]].
  - rewrite Hiff. destruct found as [l|].
    + rewrite redeemable_false. split.
      * intros H. right. now exists l.
      * intros [H|(l' & [= <-] & H)]; [discriminate | exact H].
    + split; auto.
  - rewrite Hiff. destruct found as [l|].
    + split.
      * intros H. exists l. split; [reflexivity|]. apply redeemable_spec.
        destruct (redeemable now l); congruence.
      * intros (l' & [= <-] & H). apply redeemable_spec in H. congruence.
    + split; [tauto|]. intros (l & H & _). discriminate.
  - exact Hsame.
  - intros out input' Hout Hcode.
    pose proof (acceptInviteLink_cases env w input) as Hcases.
    fold found now in Hcases. unfold returns in Hout.
    destruct found as [l|] eqn:Hfind; subst found.
    2:{ rewrite Hcases in Hout. discriminate. }
    destruct (redeemable now l) eqn:Hok.
    2:{ unfold throws in Hcases. congruence. }
    destruct Hcases as [(m & c & _ & Hthrow)|(workspace & user & Hws & Hmem & Hu)].
    { unfold throws in Hthrow. congruence. }
    assert (Hl : returns (getInviteLinkByCode (a_inviteCode input)) w
                         (Some l)).
    { unfold returns. cbn. now rewrite Hfind. }
    unfold after.
    rewrite (acceptInviteLink_run _ _ _ _ _ _ Hl Hok Hws Hmem Hu).
    cbn [snd].
    match goal with |- throws _ ?w' _ => set (w1 := w') end.
    pose proof (acceptInviteLink_cases env w1 input') as Hcases.
    rewrite Hcode in Hcases. subst w1. cbn [db workspaceInviteLinks] in Hcases.
    rewrite (find_by_code_marked _ _ _ _ _ Hfind) in Hcases.
    unfold redeemable in Hcases. cbn [markUsed_set l_isUsed negb andb] in Hcases.
    unfold throws in *. exact Hcases.
Qed.

Lemma acceptInviteLink_validity_witness :
  let e := Acme.env false true true in
  let first :=
    acceptInviteLink e (mkAcceptInviteLinkInput "AbCdEfGhIjKl" "u-bob") in
  throws (acceptInviteLink e (mkAcceptInviteLinkInput "AbCdEfGhIjKl" "u-dave"))
         (after first (Acme.world [])) invalidLink.
Proof.
  cbv zeta.
  apply (proj2 (proj2 (proj2
           (acceptInviteLink_validity
              (Acme.env false true true) (Acme.world [])
              (mkAcceptInviteLinkInput "AbCdEfGhIjKl" "u-bob"))))
           (mkAcceptInviteLinkOutput true (Some "ws_acme_000001")
                                     (Some "acme"))
           (mkAcceptInviteLinkInput "AbCdEfGhIjKl" "u-dave"));
    reflexivity.
Defined.

(** The scenario of the specification: a link already used, a link past its
    expiration and a code nobody issued are refused alike on the Acme
    store. *)
Example acceptInviteLink_refusals :
  let e := Acme.env false true true in
  throws (acceptInviteLink e (mkAcceptInviteLinkInput "MnOpQrStUvWx" "u-bob"))
         (Acme.world []) invalidLink
  /\ throws (acceptInviteLink e (mkAcceptInviteLinkInput "nobodys-code" "u-bob"))
            (Acme.world []) invalidLink
  /\ throws (acceptInviteLink
               (mkEnv None None (fun _ => 900001) (entropy e)
                      (stripe_ok e) (magicLink_ok e) (LocalTZA e))
               (mkAcceptInviteLinkInput "AbCdEfGhIjKl" "u-bob"))
            (Acme.world []) invalidLink.
Proof. cbv zeta. repeat split. Qed.

(** ** Inviting by email *)

Lemma softDelete_fresh_row d (row : Member) deletedAt deletedBy :
  memberSeq_fresh d ->
  m_id row = memberSeq d ->
  m_deletedAt row = None ->
  update_where (softDelete_where (memberSeq d))
               (softDelete_set deletedAt deletedBy)
               (workspaceMembers d ++ [row])
  = workspaceMembers d ++ [softDelete_set deletedAt deletedBy row].
Proof.
  intros Hfresh Hid Hnull. rewrite update_where_app. f_equal.
  - apply update_where_none. intros r Hr. unfold softDelete_where.
    unfold memberSeq_fresh in Hfresh. rewrite Forall_forall in Hfresh.
    specialize (Hfresh r Hr).
    destruct (Z.eqb_spec (m_id r) (memberSeq d)); [lia | reflexivity].
  - cbn. unfold softDelete_where. now rewrite Hid, Z.eqb_refl, Hnull.
Qed.

Section Invite.

Variables (env : Env) (w : World) (userId : string) (input : InviteInput)
          (workspace : Workspace) (members : list Member).

Hypothesis authenticated : userId <> EmptyString.
Hypothesis found :
  returns (workspaceRepo.getByPublicIdWithMembers (i_workspacePublicId input))
          w (Some (workspace, members)).
Hypothesis admin :
  returns (assertUserInWorkspace userId (w_id workspace) "admin") w tt.
Hypothesis newcomer :
  existsb (fun member => m_email member == i_email input) members = false.

Lemma invite_split :
  invite env (Some userId) input w
  = bind (invite_billing env workspace)
         (fun _ => invite_rest env userId input workspace) w.
Proof.
  unfold invite.
  rewrite (bind_Ok _ _ _ _ _ (requireUser_Ok _ w authenticated)).
  assert (Hfound :
    workspaceRepo.getByPublicIdWithMembers (i_workspacePublicId input) w
    = (Ok (Some (workspace, members)), w)).
  { unfold returns in found. cbn in found |- *. injection found as ->.
    reflexivity. }
  rewrite (bind_Ok _ _ _ _ _ Hfound).
  cbn [orThrow]. unfold bind at 1, ret at 1. cbn [fst snd].
  rewrite (bind_Ok _ _ _ _ _ (assertUserInWorkspace_Ok _ _ _ _ admin)).
  rewrite newcomer. reflexivity.
Qed.

(** The rest of [invite] when the mailer reports failure: the row is
    inserted and soft-deleted again. *)
Lemma invite_rest_dispatch_failed (w1 : World) :
  magicLink_ok env (i_email input) (inviteCallback env w1) = false ->
  invite_rest env userId input workspace w1
  = (Thrown (dispatchFailed input),
     mkWorld
       (mkDb (update_where
                (softDelete_where (memberSeq (db w1)))
                (softDelete_set (clock env (ticks w1)) userId)
                (workspaceMembers (db w1)
                 ++ [invitedMember env w1 userId input workspace]))
             (workspaceInviteLinks (db w1)) (workspaces (db w1))
             (users (db w1)) (subscriptions (db w1))
             (memberSeq (db w1) + 1) (inviteLinkSeq (db w1)))
       (S (ticks w1)) (S (draws w1))
       (trace w1 ++ compensation env w1 input)).
Proof.
  intros Hmail. unfold invite_rest, inviteCallback in *. run.
  rewrite Hmail. run. unfold compensation, inviteCallback.
  repeat rewrite <- app_assoc. reflexivity.
Qed.

(** The billing branch writes nothing to the store and reads neither the
    clock nor the generator: all it can do is add events. *)
Lemma invite_billing_frame (w1 : World) :
  exists evs,
    snd (invite_billing env workspace w1)
    = mkWorld (db w1) (ticks w1) (draws w1) (trace w1 ++ evs).
Proof.
  assert (Hnil : w1 = mkWorld (db w1) (ticks w1) (draws w1) (trace w1 ++ []))
    by (rewrite app_nil_r; now destruct w1).
  unfold invite_billing. destruct (isCloud env); run;
    [|exists []; exact Hnil].
  destruct (isNull _ && isNull _); run; [exists []; exact Hnil|].
  destruct (stripeSubscriptionIdOf _) as [sid|]; [|exists []; exact Hnil].
  destruct (negb _ && negb _); run; [|exists []; exact Hnil].
  destruct (stripe_ok env sid 1); run; repeat rewrite <- app_assoc;
    eexists; reflexivity.
Qed.

(** What the compensation leaves in the table: the old rows, and the new
    row soft-deleted. *)
Lemma invite_compensated_table (w1 : World) :
  db w1 = db w -> ticks w1 = ticks w -> draws w1 = draws w ->
  memberSeq_fresh (db w) ->
  magicLink_ok env (i_email input) (inviteCallback env w) = false ->
  fst (invite_rest env userId input workspace w1)
  = Thrown (dispatchFailed input)
  /\ workspaceMembers (db (snd (invite_rest env userId input workspace w1)))
     = workspaceMembers (db w)
       ++ [softDelete_set (clock env (ticks w)) userId
                          (invitedMember env w userId input workspace)]
  /\ trace (snd (invite_rest env userId input workspace w1))
     = trace w1 ++ compensation env w input.
Proof.
  intros Hdb Hticks Hdraws Hfresh Hmail.
  assert (Hmail1 :
    magicLink_ok env (i_email input) (inviteCallback env w1) = false).
  { unfold inviteCallback in *. now rewrite Hdraws. }
  rewrite (invite_rest_dispatch_failed w1 Hmail1). cbn [fst snd db trace].
  unfold compensation, inviteCallback, invitedMember.
  rewrite Hdb, Hticks, Hdraws. cbn [workspaceMembers].
  split; [reflexivity|]. split; [|reflexivity].
  now apply softDelete_fresh_row.
Qed.

(** C8. When the magic-link dispatch reports failure after the member row
    was created, the invite throws INTERNAL_SERVER_ERROR and the row it had
    just inserted is soft-deleted: the table is the old one followed by
    that row with [deletedAt] and [deletedBy] set, so every row that is not
    deleted was there before the invite. *)
Theorem invite_dispatch_failure_compensated :
  returns (invite_billing env workspace) w tt ->
  memberSeq_fresh (db w) ->
  magicLink_ok env (i_email input) (inviteCallback env w) = false ->
  let run := invite env (Some userId) input in
  throws run w (dispatchFailed input)
  /\ workspaceMembers (db (after run w))
     = workspaceMembers (db w)
       ++ [softDelete_set (clock env (ticks w)) userId
                          (invitedMember env w userId input workspace)]
  /\ (forall m, In m (workspaceMembers (db (after run w))) ->
                m_deletedAt m = None ->
                In m (workspaceMembers (db w))).
Proof.
  intros Hbilling Hfresh Hmail run. subst run.
  unfold throws, after. rewrite invite_split.
  destruct (invite_billing_frame w) as [evs Hframe].
  unfold returns in Hbilling.
  destruct (invite_billing env workspace w) as [r w1] eqn:Hrun.
  cbn [fst snd] in Hbilling, Hframe. subst r w1.
  rewrite (bind_Ok _ _ _ _ _ Hrun).
  destruct (invite_compensated_table
              (mkWorld (db w) (ticks w) (draws w) (trace w ++ evs))
              eq_refl eq_refl eq_refl Hfresh Hmail) as (Hthrow & Htable & _).
  split; [exact Hthrow|]. split; [exact Htable|].
  intros m Hin Hlive. rewrite Htable in Hin.
  apply in_app_or in Hin as [Hin|[<-|[]]]; [exact Hin | discriminate Hlive].
Qed.

Section SeatLimited.

Variables (subs : list Subscription) (team : Subscription) (sid : string).

Hypothesis cloud : isCloud env = true.
Hypothesis plans :
  returns (subscriptionRepo.getByReferenceId (w_publicId workspace)) w subs.
Hypothesis teamPlan : getSubscriptionByPlan subs "team" = Some team.
Hypothesis handle : s_stripeSubscriptionId team = Some sid.
Hypothesis handle_truthy : sid <> EmptyString.
Hypothesis limited : hasUnlimitedSeats subs = false.

(** The billing branch of a seat-limited workspace: one seat increment,
    and a throw if it fails. *)
Lemma invite_billing_seat :
  invite_billing env workspace w
  = if stripe_ok env sid 1
    then (Ok tt,
          mkWorld (db w) (ticks w) (draws w)
                  (trace w ++ [SeatsUpdated sid 1 true]))
    else (Thrown seatsFailed,
          mkWorld (db w) (ticks w) (draws w)
                  (trace w ++ [SeatsUpdated sid 1 false;
                               ConsoleError
                                 "Failed to update Stripe subscription seats:"])).
Proof.
  unfold returns in plans. cbn in plans. injection plans as Hsubs.
  apply String.eqb_neq in handle_truthy.
  unfold invite_billing. rewrite cloud. run.
  rewrite Hsubs, teamPlan. cbn [isNull andb stripeSubscriptionIdOf].
  rewrite handle, handle_truthy, limited. run.
  destruct (stripe_ok env sid 1); run; repeat rewrite <- app_assoc;
    reflexivity.
Qed.

(** The seats counted over a trace add up. *)
Lemma seatCount_app s (xs ys : list Event) :
  seatCount s (xs ++ ys) = seatCount s xs + seatCount s ys.
Proof.
  induction xs as [|e xs IH]; [reflexivity|].
  cbn [app seatCount]. destruct e as [s' delta [|]| | | | | | |];
    rewrite IH; lia.
Qed.

(** C10. In the hosted deployment, when the seat increment goes through and
    the magic-link dispatch then fails, the invite throws
    INTERNAL_SERVER_ERROR after soft-deleting the member row; its effects
    are the increment, the insertion, the dispatch, the log line and the
    soft-delete, with no second call to the billing provider.  The seats
    counted for the subscription are one more than before, and no row that
    is not deleted was added. *)
Theorem invite_dispatch_failure_keeps_seat :
  stripe_ok env sid 1 = true ->
  magicLink_ok env (i_email input) (inviteCallback env w) = false ->
  memberSeq_fresh (db w) ->
  let run := invite env (Some userId) input in
  throws run w (dispatchFailed input)
  /\ emitted run w (SeatsUpdated sid 1 true :: compensation env w input)
  /\ seatCount sid (trace (after run w)) = seatCount sid (trace w) + 1
  /\ workspaceMembers (db (after run w))
     = workspaceMembers (db w)
       ++ [softDelete_set (clock env (ticks w)) userId
                          (invitedMember env w userId input workspace)]
  /\ (forall m, In m (workspaceMembers (db (after run w))) ->
                m_deletedAt m = None ->
                In m (workspaceMembers (db w))).
Proof.
  intros Hstripe Hmail Hfresh run. subst run.
  unfold throws, emitted, after. rewrite invite_split.
  pose proof invite_billing_seat as Hbilling. rewrite Hstripe in Hbilling.
  rewrite (bind_Ok _ _ _ _ _ Hbilling).
  destruct (invite_compensated_table
              (mkWorld (db w) (ticks w) (draws w)
                       (trace w ++ [SeatsUpdated sid 1 true]))
              eq_refl eq_refl eq_refl Hfresh Hmail)
    as (Hthrow & Htable & Htrace).
  cbn [trace] in Htrace.
  split; [exact Hthrow|]. split; [now rewrite Htrace, <- app_assoc|].
  split.
  - rewrite Htrace. rewrite !seatCount_app. cbn [seatCount compensation].
    rewrite String.eqb_refl. lia.
  - split; [exact Htable|].
    intros m Hin Hlive. rewrite Htable in Hin.
    apply in_app_or in Hin as [Hin|[<-|[]]]; [exact Hin | discriminate Hlive].
Qed.

End SeatLimited.

(** The rest of [invite] starts by inserting the member row and makes no
    call to the billing provider. *)
Lemma invite_rest_inserts_quietly (w1 : World) :
  exists rest,
    emitted (invite_rest env userId input workspace) w1
            (MemberInserted (memberSeq (db w1)) :: rest)
    /\ Forall notBilling rest.
Proof.
  unfold emitted, after, invite_rest. run.
  destruct (magicLink_ok env _ _); run; repeat rewrite <- app_assoc;
    eexists; (split; [reflexivity | repeat constructor]).
Qed.

(** The billing branch when the subscription check passes and the guard of
    the increment does not hold: nothing happens. *)
Lemma invite_billing_skips subs :
  returns (subscriptionRepo.getByReferenceId (w_publicId workspace)) w subs ->
  getSubscriptionByPlan subs "team" <> None
  \/ getSubscriptionByPlan subs "pro" <> None ->
  stripeSubscriptionIdOf (getSubscriptionByPlan subs "team") = None
  \/ stripeSubscriptionIdOf (getSubscriptionByPlan subs "team")
     = Some EmptyString
  \/ hasUnlimitedSeats subs = true ->
  invite_billing env workspace w = (Ok tt, w).
Proof.
  intros plans Hplan Hguard.
  unfold returns in plans. cbn in plans. injection plans as Hsubs.
  unfold invite_billing. destruct (isCloud env); run; [|reflexivity].
  rewrite Hsubs.
  assert (Hgate : isNull (getSubscriptionByPlan subs "team")
                  && isNull (getSubscriptionByPlan subs "pro") = false).
  { destruct (getSubscriptionByPlan subs "team"),
             (getSubscriptionByPlan subs "pro"); cbn; try reflexivity.
    destruct Hplan as [H|H]; now contradiction H. }
  rewrite Hgate. run.
  destruct Hguard as [->|[->|Hunlimited]]; [reflexivity..|].
  destruct (stripeSubscriptionIdOf _); [|reflexivity].
  rewrite Hunlimited, andb_false_r. reflexivity.
Qed.

(** C6, as the router has it.  In the hosted deployment the guard of the
    seat increment is the router's own: the team subscription it resolved
    carries a non-empty Stripe handle and unlimited seats do not apply.
    When the guard holds, the increment is the first effect of the invite,
    ahead of the insertion of the member row and with no further call to
    the billing provider; and if the increment fails the invite throws
    INTERNAL_SERVER_ERROR with the store as it was, no member row added.
    When the subscription check passes and the guard does not hold - no
    handle on the resolved team subscription, or unlimited seats - no
    increment is issued and the invite goes on to insert the member row. *)
Theorem invite_seat_increment_guarded subs :
  isCloud env = true ->
  returns (subscriptionRepo.getByReferenceId (w_publicId workspace)) w subs ->
  let run := invite env (Some userId) input in
  let activeTeamSubscription := getSubscriptionByPlan subs "team" in
  let activeProSubscription := getSubscriptionByPlan subs "pro" in
  (forall sid,
      stripeSubscriptionIdOf activeTeamSubscription = Some sid ->
      sid <> EmptyString ->
      hasUnlimitedSeats subs = false ->
      if stripe_ok env sid 1
      then exists rest,
             emitted run w (SeatsUpdated sid 1 true
                            :: MemberInserted (memberSeq (db w)) :: rest)
             /\ Forall notBilling rest
      else throws run w seatsFailed
           /\ db (after run w) = db w
           /\ emitted run w
                [SeatsUpdated sid 1 false;
                 ConsoleError "Failed to update Stripe subscription seats:"])
  /\ (activeTeamSubscription <> None \/ activeProSubscription <> None ->
      stripeSubscriptionIdOf activeTeamSubscription = None
      \/ stripeSubscriptionIdOf activeTeamSubscription = Some EmptyString
      \/ hasUnlimitedSeats subs = true ->
      exists rest,
        emitted run w (MemberInserted (memberSeq (db w)) :: rest)
        /\ Forall notBilling rest).
Proof.
  intros cloud plans run team pro. subst run team pro. split.
  - intros sid Hsid Htruthy Hlimited.
    destruct (getSubscriptionByPlan subs "team") as [team|] eqn:Hteam;
      [|discriminate Hsid].
    cbn [stripeSubscriptionIdOf] in Hsid.
    unfold throws, emitted, after. rewrite invite_split. unfold bind.
    rewrite (invite_billing_seat subs team sid cloud plans Hteam Hsid
               Htruthy Hlimited).
    destruct (stripe_ok env sid 1).
    + destruct (invite_rest_inserts_quietly
                  (mkWorld (db w) (ticks w) (draws w)
                           (trace w ++ [SeatsUpdated sid 1 true])))
        as (rest & Hrest & Hquiet).
      exists rest. unfold emitted, after in Hrest. rewrite Hrest.
      cbn [trace db]. rewrite <- app_assoc. now split.
    + cbn [fst snd db trace]. repeat split.
  - intros Hplan Hguard.
    unfold emitted, after. rewrite invite_split.
    rewrite (bind_Ok _ _ _ _ _ (invite_billing_skips subs plans Hplan Hguard)).
    exact (invite_rest_inserts_quietly w).
Qed.

End Invite.

Lemma invite_dispatch_failure_compensated_witness :
  let run := invite (Acme.env false true false) (Some "u-alice") Acme.inviteEve in
  throws run (Acme.world []) (dispatchFailed Acme.inviteEve)
  /\ workspaceMembers (db (after run (Acme.world [])))
     = [Acme.aliceMember; Acme.carolMember; Acme.daveMember;
        Acme.eveRow (Some 1000) (Some "u-alice")].
Proof.
  cbv zeta.
  destruct (invite_dispatch_failure_compensated
              (Acme.env false true false) (Acme.world []) "u-alice"
              Acme.inviteEve Acme.acme [Acme.aliceMember; Acme.daveMember])
    as (Hthrow & Htable & _).
  - discriminate.
  - reflexivity.
  - reflexivity.
  - reflexivity.
  - reflexivity.
  - unfold memberSeq_fresh. cbn. repeat constructor.
  - reflexivity.
  - exact (conj Hthrow Htable).
Defined.

Lemma invite_seat_increment_guarded_witness :
  (let run := invite (Acme.env true false true) (Some "u-alice")
                     Acme.inviteEve in
   let w := Acme.world [Acme.teamPlan] in
   throws run w seatsFailed
   /\ db (after run w) = db w
   /\ emitted run w
        [SeatsUpdated "sub_team_1" 1 false;
         ConsoleError "Failed to update Stripe subscription seats:"])
  /\ (let run := invite (Acme.env true false true) (Some "u-alice")
                        Acme.inviteEve in
      let w := Acme.world [Acme.detachedPlan; Acme.teamPlan] in
      exists rest,
        emitted run w (MemberInserted 4 :: rest) /\ Forall notBilling rest).
Proof.
  cbv zeta. split.
  - apply (proj1 (invite_seat_increment_guarded
                    (Acme.env true false true) (Acme.world [Acme.teamPlan])
                    "u-alice" Acme.inviteEve Acme.acme
                    [Acme.aliceMember; Acme.daveMember]
                    ltac:(discriminate) eq_refl eq_refl eq_refl
                    [Acme.teamPlan] eq_refl eq_refl)
                 "sub_team_1" eq_refl ltac:(discriminate) eq_refl).
  - apply (proj2 (invite_seat_increment_guarded
                    (Acme.env true false true)
                    (Acme.world [Acme.detachedPlan; Acme.teamPlan])
                    "u-alice" Acme.inviteEve Acme.acme
                    [Acme.aliceMember; Acme.daveMember]
                    ltac:(discriminate) eq_refl eq_refl eq_refl
                    [Acme.detachedPlan; Acme.teamPlan] eq_refl eq_refl)).
    + left. discriminate.
    + left. reflexivity.
Defined.

(** C6 as the specification words it does not hold: an active team
    subscription without unlimited seats is not enough for the increment to
    be issued.  Acme's team plan carries no Stripe handle; in the hosted
    deployment, with a billing provider that would refuse every call, the
    invite succeeds, the member row is stored, and the provider was never
    called. *)
Lemma invite_without_handle_skips_increment :
  let e := Acme.env true false true in
  let w := Acme.world [Acme.detachedPlan] in
  let run := invite e (Some "u-alice") Acme.inviteEve in
  isCloud e = true
  /\ returns (subscriptionRepo.getByReferenceId "ws_acme_000001") w
             [Acme.detachedPlan]
  /\ getSubscriptionByPlan [Acme.detachedPlan] "team"
     = Some Acme.detachedPlan
  /\ hasUnlimitedSeats [Acme.detachedPlan] = false
  /\ returns run w (mkMemberRef 4 "uid_0")
  /\ In (Acme.eveRow None None) (workspaceMembers (db (after run w)))
  /\ emitted run w
       [MemberInserted 4;
        MagicLinkSent "eve@example.com"
                      "/boards?type=invite&memberPublicId=uid_0" true].
Proof.
  cbv zeta. repeat split. cbn. tauto.
Qed.

Lemma invite_dispatch_failure_keeps_seat_witness :
  let run := invite (Acme.env true true false) (Some "u-alice") Acme.inviteEve in
  let w := Acme.world [Acme.teamPlan] in
  throws run w (dispatchFailed Acme.inviteEve)
  /\ trace (after run w)
     = [SeatsUpdated "sub_team_1" 1 true;
        MemberInserted 4;
        MagicLinkSent "eve@example.com"
                      "/boards?type=invite&memberPublicId=uid_0" false;
        ConsoleError "Failed to send magic link invitation:";
        MemberUpdated 4]
  /\ seatCount "sub_team_1" (trace (after run w)) = 1
  /\ workspaceMembers (db (after run w))
     = [Acme.aliceMember; Acme.carolMember; Acme.daveMember;
        Acme.eveRow (Some 1000) (Some "u-alice")].
Proof.
  cbv zeta.
  destruct (invite_dispatch_failure_keeps_seat
              (Acme.env true true false) (Acme.world [Acme.teamPlan])
              "u-alice" Acme.inviteEve Acme.acme
              [Acme.aliceMember; Acme.daveMember]
              ltac:(discriminate) eq_refl eq_refl eq_refl
              [Acme.teamPlan] Acme.teamPlan "sub_team_1"
              eq_refl eq_refl eq_refl eq_refl ltac:(discriminate) eq_refl
              eq_refl eq_refl)
    as (Hthrow & Htrace & Hseats & Htable & _).
  - unfold memberSeq_fresh. cbn. repeat constructor.
  - exact (conj Hthrow (conj Htrace (conj Hseats Htable))).
Defined.

(** ** Removing a member of a seat-limited workspace *)

Lemma affected_hd {A B} (cond : A -> bool) (f : A -> B) (rows : list A) r :
  In r rows -> cond r = true ->
  exists r', hd_error (map f (affected cond rows)) = Some r'.
Proof.
  intros Hin Hcond.
  assert (H : In r (affected cond rows)) by (apply filter_In; auto).
  destruct (affected cond rows) as [|x xs]; [destruct H|].
  now exists (f x).
Qed.

Section RemoveMember.

Variables (env : Env) (w : World) (userId : string) (input : DeleteInput)
          (workspace : Workspace) (member : Member)
          (subs : list Subscription) (team : Subscription) (sid : string).

Hypothesis authenticated : userId <> EmptyString.
Hypothesis found :
  returns (workspaceRepo.getByPublicId (d_workspacePublicId input)) w
          (Some workspace).
Hypothesis admin :
  returns (assertUserInWorkspace userId (w_id workspace) "admin") w tt.
Hypothesis present :
  returns (getByPublicId (d_memberPublicId input)) w (Some member).
Hypothesis live : m_deletedAt member = None.
Hypothesis cloud : isCloud env = true.
Hypothesis plans :
  returns (subscriptionRepo.getByReferenceId (w_publicId workspace)) w subs.
Hypothesis teamPlan : getSubscriptionByPlan subs "team" = Some team.
Hypothesis handle : s_stripeSubscriptionId team = Some sid.
Hypothesis handle_truthy : sid <> EmptyString.
Hypothesis limited : hasUnlimitedSeats subs = false.
Hypothesis decrement_fails : stripe_ok env sid (-1) = false.

(** C7. In the hosted deployment, when the seat decrement fails, the
    removal still succeeds: the failure is logged and nothing is thrown,
    and the member, looked up again, is soft-deleted with the time and the
    caller recorded. *)
Theorem delete_decrement_failure_swallowed :
  let run := delete env (Some userId) input in
  returns run w (mkSuccess true)
  /\ returns (getByPublicId (d_memberPublicId input)) (after run w)
             (Some (softDelete_set (clock env (ticks w)) userId member))
  /\ emitted run w
       [MemberUpdated (m_id member);
        SeatsUpdated sid (-1) false;
        ConsoleError "Failed to decrease Stripe subscription seats:"].
Proof.
  intros run. subst run.
  unfold returns in found, present, plans. cbn in found, present, plans.
  injection found as Hws. injection present as Hm. injection plans as Hsubs.
  apply String.eqb_neq in handle_truthy.
  assert (Hcond : softDelete_where (m_id member) member = true).
  { unfold softDelete_where. now rewrite Z.eqb_refl, live. }
  destruct (affected_hd (softDelete_where (m_id member)) returningRef
              (workspaceMembers (db w)) member
              (proj1 (find_some _ _ Hm)) Hcond) as [ref Href].
  unfold returns, emitted, after, delete.
  rewrite (bind_Ok _ _ _ _ _ (requireUser_Ok _ w authenticated)).
  run. rewrite Hws. run.
  rewrite (assertUserInWorkspace_Ok _ _ _ _ admin).
  run. rewrite Hm. run. rewrite Href. run.
  rewrite cloud. run. rewrite Hsubs, teamPlan.
  cbn [stripeSubscriptionIdOf]. rewrite handle, handle_truthy, limited.
  run. rewrite decrement_fails. run.
  split; [reflexivity|]. split.
  - rewrite (find_update_where (softDelete_where (m_id member))
               (softDelete_set (clock env (ticks w)) userId)
               (fun m => m_publicId m == d_memberPublicId input)
               (workspaceMembers (db w)) member (fun _ => eq_refl) Hm).
    now rewrite Hcond.
  - repeat rewrite <- app_assoc. reflexivity.
Qed.

End RemoveMember.

Lemma delete_decrement_failure_swallowed_witness :
  let run := delete (Acme.env true false true) (Some "u-alice")
                    (mkDeleteInput "ws_acme_000001" "mem_dave_00003") in
  let w := Acme.world [Acme.teamPlan] in
  returns run w (mkSuccess true)
  /\ returns (getByPublicId "mem_dave_00003") (after run w)
             (Some (mkMember 3 "mem_dave_00003" "dave@example.com"
                             (Some "u-dave") 1 "u-alice" "member" active
                             (Some 1000) (Some "u-alice")))
  /\ emitted run w
       [MemberUpdated 3;
        SeatsUpdated "sub_team_1" (-1) false;
        ConsoleError "Failed to decrease Stripe subscription seats:"].
Proof.
  cbv zeta.
  apply (delete_decrement_failure_swallowed
           (Acme.env true false true) (Acme.world [Acme.teamPlan]) "u-alice"
           (mkDeleteInput "ws_acme_000001" "mem_dave_00003")
           Acme.acme Acme.daveMember [Acme.teamPlan] Acme.teamPlan
           "sub_team_1"
           ltac:(discriminate) eq_refl eq_refl eq_refl eq_refl eq_refl
           eq_refl eq_refl eq_refl ltac:(discriminate) eq_refl eq_refl).
Defined.

(** ** Generating an invite link *)

Lemma parseExpiresIn_range n z :
  parseExpiresIn n = Some z -> 1 <= z <= 30.
Proof.
  destruct n as [[i|]|]; cbn; [|discriminate|intros [= <-]; lia].
  destruct (Z.leb_spec 1 i), (Z.leb_spec i 30); cbn;
    [intros [= <-]; lia | discriminate..].
Qed.



(** A code [getInviteLinkByCode] finds no row for is free for an insert. *)
Lemma unused_inviteCode (w : World) (code : string) :
  returns (memberRepo.getInviteLinkByCode code) w None ->
  memberRepo.inviteCode_taken (db w) code = false.
Proof.
  unfold returns, memberRepo.inviteCode_taken. cbn. intros H.
  injection H as H. induction (workspaceInviteLinks (db w)) as [|l ls IH].
  - reflexivity.
  - cbn in H |- *. destruct (l_inviteCode l == code); [discriminate|].
    exact (IH H).
Qed.

(** [setDate] with the day of the month moved by [n] moves the local
    reading by [n] times 86400000 milliseconds. *)
Lemma setDate_plus_eq (env : Env) (d : Date) (n : Z) :
  setDate_plus env d n
  = d + LocalTZA env d true + n * 86400000
    - LocalTZA env (d + LocalTZA env d true + n * 86400000) false.
Proof.
  unfold setDate_plus, UTC, MakeDate, Day, TimeWithinDay, LocalTime, msPerDay.
  pose proof (Z.div_mod (d + LocalTZA env d true) 86400000 ltac:(lia)) as E.
  replace (((d + LocalTZA env d true) / 86400000 + n) * 86400000
           + (d + LocalTZA env d true) mod 86400000)
    with (d + LocalTZA env d true + n * 86400000) by lia.
  reflexivity.
Qed.

Section GenerateInviteLink.

Variables (env : Env) (w : World) (userId : string)
          (raw : GenerateInviteLinkRaw) (input : GenerateInviteLinkInput)
          (workspace : Workspace) (members : list Member)
          (subs : list Subscription).

Hypothesis authenticated : userId <> EmptyString.
Hypothesis accepted : parseGenerateInviteLinkInput raw = Some input.
Hypothesis found :
  returns (workspaceRepo.getByPublicIdWithMembers (g_workspacePublicId input))
          w (Some (workspace, members)).
Hypothesis admin :
  returns (assertUserInWorkspace userId (w_id workspace) "admin") w tt.
Hypothesis plans :
  returns (subscriptionRepo.getByReferenceId (w_publicId workspace)) w subs.
Hypothesis subscribed :
  isCloud env = true ->
  isNull (getSubscriptionByPlan subs "team")
  && isNull (getSubscriptionByPlan subs "pro") = false.

Hypothesis unused_code :
  returns (memberRepo.getInviteLinkByCode (entropy env (draws w))) w None.


End GenerateInviteLink.


(** On a host whose clocks go back an hour within the day, the same
    request of one day gives a link that lasts 25 hours; and a request that
    draws a code some stored link carries fails on the table's constraint,
    with no link stored. *)
Example generateInviteLink_clock_change_and_collision :
  let request :=
    mkGenerateInviteLinkRaw "ws_acme_000001" (Some "admin") (Some (Int 1)) in
  returns (generateInviteLink_request Acme.envFallBack (Some "u-alice")
                                      request) (Acme.world [])
          (mkGenerateInviteLinkOutput "http://localhost:3000/invite/uid_0"
                                      "uid_0" (1000 + 25 * 3600000))
  /\ (let e := Acme.env false true true in
      let w1 := after (generateInviteLink_request e (Some "u-alice") request)
                      (Acme.world []) in
      let w2 := mkWorld (db w1) (ticks w1) 0 (trace w1) in
      throws (generateInviteLink_request e (Some "u-alice") request) w2
             (DatabaseError "workspace_invite_link_inviteCode_unique")
      /\ workspaceInviteLinks (db (after (generateInviteLink_request
                                            e (Some "u-alice") request) w2))
         = workspaceInviteLinks (db w1)).
Proof. cbv zeta. repeat split. Qed.

(** * Further properties of the router and the repository *)

(** ** Chaining a relation along a run *)

Section Keeps.

Variable R : World -> World -> Prop.
Hypothesis HR : Chains R.

Lemma keeps_ret {A} (a : A) : keeps R (ret a).
Proof. intros w. apply (chains_refl R HR). Qed.

Lemma keeps_throw {A} (e : Exn) : keeps R (@throw A e).
Proof. intros w. apply (chains_refl R HR). Qed.

Lemma keeps_bind {A B} (c : M A) (k : A -> M B) :
  keeps R c -> (forall a, keeps R (k a)) -> keeps R (bind c k).
Proof.
  intros Hc Hk w. unfold after, bind. specialize (Hc w). unfold after in Hc.
  destruct (c w) as [[a|e] w1]; cbn [snd] in *; [|exact Hc].
  apply (chains_trans R HR _ w1); [exact Hc | apply Hk].
Qed.

Lemma keeps_try_catch {A} (c : M A) (h : Exn -> M A) :
  keeps R c -> (forall e, keeps R (h e)) -> keeps R (try_catch c h).
Proof.
  intros Hc Hh w. unfold after, try_catch. specialize (Hc w).
  unfold after in Hc.
  destruct (c w) as [[a|e] w1]; cbn [snd] in *; [exact Hc|].
  apply (chains_trans R HR _ w1); [exact Hc | apply Hh].
Qed.

(** A step that leaves the world as it found it. *)
Lemma keeps_silent {A} (c : M A) :
  (forall w, after c w = w) -> keeps R c.
Proof. intros H w. rewrite H. apply (chains_refl R HR). Qed.

End Keeps.

(** Walk a procedure along its binds, tests and matches; [leaf] closes the
    store calls and the reads of the clock and the generator. *)
Ltac keeps_walk HR leaf :=
  repeat first
    [ match goal with
      | |- keeps _ (ret _) => apply (keeps_ret _ HR)
      | |- keeps _ (throw _) => apply (keeps_throw _ HR)
      | |- keeps _ (bind _ _) => apply (keeps_bind _ HR); [|intros ?]
      | |- keeps _ (try_catch _ _) =>
          apply (keeps_try_catch _ HR); [|intros ?]
      | |- keeps _ (if ?b then _ else _) => destruct b
      | |- keeps _ (match ?x with _ => _ end) => destruct x
      end
    | leaf
    | progress cbv beta zeta
    | progress unfold requireUser, assertUserInWorkspace, invite_billing,
        updateSubscriptionSeats, signInMagicLink, console_error, nanoid,
        generateUID, when, orThrow ].

(** *** The relations chain *)

Lemma softDeleted_or_same_trans a b c :
  softDeleted_or_same a b -> softDeleted_or_same b c ->
  softDeleted_or_same a c.
Proof.
  intros [->|(Ha & t & u & ->)] H; [exact H|].
  destruct H as [->|(Hb & _)]; [|discriminate Hb].
  right. split; [exact Ha|]. now exists t, u.
Qed.

Lemma Forall2_softDeleted_refl rows :
  Forall2 softDeleted_or_same rows rows.
Proof. induction rows; constructor; [now left | assumption]. Qed.

Lemma Forall2_softDeleted_trans xs ys zs :
  Forall2 softDeleted_or_same xs ys -> Forall2 softDeleted_or_same ys zs ->
  Forall2 softDeleted_or_same xs zs.
Proof.
  intros H. revert zs. induction H as [|x y xs ys Hxy _ IH]; intros zs Hz.
  - inversion Hz. constructor.
  - inversion Hz as [|? z ? zs' Hyz Hrest]; subst. constructor.
    + exact (softDeleted_or_same_trans _ _ _ Hxy Hyz).
    + now apply IH.
Qed.

Lemma members_evolve_chains : Chains members_evolve.
Proof.
  split.
  - intros w. exists (workspaceMembers (db w)), []. rewrite app_nil_r.
    split; [reflexivity | apply Forall2_softDeleted_refl].
  - intros a b c (k1 & n1 & E1 & F1) (k2 & n2 & E2 & F2).
    rewrite E1 in F2. apply Forall2_app_inv_l in F2
      as (k2a & k2b & Fa & Fb & ->).
    exists k2a, (k2b ++ n2). rewrite E2, <- app_assoc.
    split; [reflexivity | exact (Forall2_softDeleted_trans _ _ _ F1 Fa)].
Qed.

Lemma directory_kept_chains : Chains directory_kept.
Proof.
  split; [now intros w|].
  intros a b c (H1 & H2 & H3) (H4 & H5 & H6). repeat split; congruence.
Qed.

Lemma members_kept_chains : Chains members_kept.
Proof.
  split; [now intros w|]. intros a b c [H1 H2] [H3 H4]. split; congruence.
Qed.

Lemma links_kept_chains : Chains links_kept.
Proof.
  split; [now intros w|]. intros a b c [H1 H2] [H3 H4]. split; congruence.
Qed.

Lemma wf_kept_chains : Chains wf_kept.
Proof. split; unfold wf_kept; auto. Qed.

Lemma emits_only_chains P : Chains (emits_only P).
Proof.
  split.
  - intros w. exists []. now rewrite app_nil_r.
  - intros a b c (e1 & E1 & F1) (e2 & E2 & F2). exists (e1 ++ e2).
    rewrite E2, E1, <- app_assoc. split; [reflexivity|].
    apply Forall_app. now split.
Qed.

(** *** The store calls, relation by relation *)

Lemma softDelete_members_evolve memberId deletedAt deletedBy :
  keeps members_evolve (softDelete memberId deletedAt deletedBy).
Proof.
  intros w. unfold after. rewrite softDelete_run. cbn [snd db].
  exists (update_where (softDelete_where memberId)
                       (softDelete_set deletedAt deletedBy)
                       (workspaceMembers (db w))), [].
  rewrite app_nil_r. split; [reflexivity|].
  induction (workspaceMembers (db w)) as [|r rows IH]; cbn; constructor;
    [|exact IH].
  unfold softDelete_where.
  destruct (m_id r =? memberId); cbn [andb]; [|now left].
  destruct (m_deletedAt r) eqn:E; cbn [isNull]; [now left|].
  right. split; [exact E|]. now exists deletedAt, deletedBy.
Qed.

Lemma create_members_evolve env memberInput :
  keeps members_evolve (create env memberInput).
Proof.
  intros w. unfold after. run. eexists _, [_].
  split; [reflexivity | apply Forall2_softDeleted_refl].
Qed.

Ltac split_insert :=
  try match goal with
      | |- context [inviteCode_taken ?d ?c] =>
          destruct (inviteCode_taken d c); run
      end.

Ltac db_leaf :=
  intros ?; unfold after; run; split_insert; first
    [ reflexivity
    | repeat split; reflexivity
    | eexists _, []; rewrite app_nil_r;
      split; [reflexivity | apply Forall2_softDeleted_refl] ].

Ltac members_evolve_leaf :=
  first [ apply softDelete_members_evolve
        | apply create_members_evolve
        | db_leaf ].

(** X1. The member table under the router: whatever the procedure, the input
    and the outcome, the rows that were there stay in place, unchanged or
    soft-deleted from live, and new rows come after them.  No procedure
    removes a member row, rewrites another column of it, or touches a row
    that is already soft-deleted. *)
Theorem router_members_evolve env :
  (forall ctx_user input, keeps members_evolve (invite env ctx_user input))
  /\ (forall ctx_user input, keeps members_evolve (delete env ctx_user input))
  /\ (forall ctx_user raw,
         keeps members_evolve (generateInviteLink_request env ctx_user raw))
  /\ (forall input, keeps members_evolve (acceptInviteLink env input))
  /\ (forall code, keeps members_evolve (getInviteInfo env code))
  /\ (forall ctx_user publicId,
         keeps members_evolve (getInviteLinks env ctx_user publicId))
  /\ (forall ctx_user inviteLinkId,
         keeps members_evolve
               (memberRouter.deleteInviteLink ctx_user inviteLinkId)).
Proof.
  repeat match goal with |- _ /\ _ => split end; intros;
    unfold invite, delete, generateInviteLink_request, generateInviteLink,
           acceptInviteLink, getInviteInfo, getInviteLinks,
           memberRouter.deleteInviteLink;
    keeps_walk members_evolve_chains members_evolve_leaf.
Qed.

(** X2. What each procedure leaves alone.  No procedure writes to the
    workspaces, the users or the subscriptions; [invite] and [delete] leave
    the invite links and their sequence as they were; generating, listing,
    previewing and deleting links leave the members and their sequence as
    they were, so of the link procedures only a redemption adds a member. *)
Theorem router_footprint env :
  ((forall ctx_user input, keeps directory_kept (invite env ctx_user input))
   /\ (forall ctx_user input,
          keeps directory_kept (delete env ctx_user input))
   /\ (forall ctx_user raw,
          keeps directory_kept (generateInviteLink_request env ctx_user raw))
   /\ (forall input, keeps directory_kept (acceptInviteLink env input))
   /\ (forall code, keeps directory_kept (getInviteInfo env code))
   /\ (forall ctx_user publicId,
          keeps directory_kept (getInviteLinks env ctx_user publicId))
   /\ (forall ctx_user inviteLinkId,
          keeps directory_kept
                (memberRouter.deleteInviteLink ctx_user inviteLinkId)))
  /\ ((forall ctx_user input, keeps links_kept (invite env ctx_user input))
      /\ (forall ctx_user input, keeps links_kept (delete env ctx_user input))
      /\ (forall code, keeps links_kept (getInviteInfo env code))
      /\ (forall ctx_user publicId,
             keeps links_kept (getInviteLinks env ctx_user publicId)))
  /\ ((forall ctx_user raw,
          keeps members_kept (generateInviteLink_request env ctx_user raw))
      /\ (forall code, keeps members_kept (getInviteInfo env code))
      /\ (forall ctx_user publicId,
             keeps members_kept (getInviteLinks env ctx_user publicId))
      /\ (forall ctx_user inviteLinkId,
             keeps members_kept
                   (memberRouter.deleteInviteLink ctx_user inviteLinkId))).
Proof.
  repeat match goal with |- _ /\ _ => split end; intros;
    unfold invite, delete, generateInviteLink_request, generateInviteLink,
           acceptInviteLink, getInviteInfo, getInviteLinks,
           memberRouter.deleteInviteLink;
    first [ keeps_walk directory_kept_chains db_leaf; fail
          | keeps_walk links_kept_chains db_leaf; fail
          | keeps_walk members_kept_chains db_leaf ].
Qed.

(** *** The keys of the store *)

Lemma map_update_where {A B} (f : A -> B) cond set (rows : list A) :
  (forall r, f (set r) = f r) ->
  map f (update_where cond set rows) = map f rows.
Proof.
  intros H. unfold update_where. rewrite map_map. apply map_ext.
  intros r. destruct (cond r); [apply H | reflexivity].
Qed.

Lemma Forall_update_where {A} (P : A -> Prop) cond set (rows : list A) :
  (forall r, P r -> P (set r)) ->
  Forall P rows -> Forall P (update_where cond set rows).
Proof.
  intros H. induction 1 as [|r rows Hr _ IH]; cbn; constructor; [|exact IH].
  destruct (cond r); auto.
Qed.

(** Deleting rows keeps the remaining keys distinct. *)
Lemma delete_where_keys {A} (key : A -> Z) (cond : A -> bool)
    (rows : list A) :
  NoDup (map key rows) -> NoDup (map key (delete_where cond rows)).
Proof.
  unfold delete_where. induction rows as [|r rows IH]; cbn; [trivial|].
  rewrite NoDup_cons_iff. intros [Hr Hrows].
  destruct (cond r); cbn; [now apply IH|].
  apply NoDup_cons; [|now apply IH].
  contradict Hr. apply in_map_iff in Hr as (r' & E & Hr').
  apply filter_In in Hr' as [Hr' _]. rewrite <- E. now apply in_map.
Qed.

Lemma NoDup_map_snoc {A} (f : A -> Z) (l : list A) (x : A) :
  NoDup (map f l) -> Forall (fun y => f y < f x) l ->
  NoDup (map f (l ++ [x])).
Proof.
  intros Hnd Hlt. rewrite map_app. cbn.
  induction l as [|y l IH]; cbn; [repeat constructor; auto|].
  inversion Hnd as [|? ? Hy Hl]; subst.
  inversion Hlt as [|? ? Hyx Hrest]; subst.
  constructor; [|auto].
  intros Hin. apply in_app_or in Hin as [Hin|[E|[]]]; [auto | lia].
Qed.

Lemma Forall_snoc_next {A} (f : A -> Z) (l : list A) (x : A) seq :
  f x = seq -> Forall (fun y => f y < seq) l ->
  Forall (fun y => f y < seq + 1) (l ++ [x]).
Proof.
  intros E H. apply Forall_app. split.
  - eapply Forall_impl; [|exact H]. cbn. intros; lia.
  - repeat constructor. lia.
Qed.

Ltac wf_open :=
  intros w (Hm1 & Hm2 & Hl1 & Hl2);
  unfold after, store_wf, member_pk, memberSeq_fresh, link_pk,
         inviteLinkSeq_fresh in *;
  run; repeat match goal with |- _ /\ _ => split end; try assumption.

Lemma create_wf env memberInput : keeps wf_kept (create env memberInput).
Proof.
  wf_open.
  - now apply NoDup_map_snoc.
  - now apply Forall_snoc_next.
Qed.

Lemma createInviteLink_wf env args : keeps wf_kept (createInviteLink env args).
Proof.
  intros w (Hm1 & Hm2 & Hl1 & Hl2).
  unfold after, store_wf, member_pk, memberSeq_fresh, link_pk,
         inviteLinkSeq_fresh in *.
  run. destruct (inviteCode_taken (db w) (il_inviteCode args)); run;
    repeat match goal with |- _ /\ _ => split end; try assumption.
  - eapply Forall_impl; [|exact Hl2]. cbn. intros; lia.
  - now apply NoDup_map_snoc.
  - now apply Forall_snoc_next.
Qed.

Lemma softDelete_wf memberId deletedAt deletedBy :
  keeps wf_kept (softDelete memberId deletedAt deletedBy).
Proof.
  wf_open.
  - now rewrite map_update_where.
  - apply Forall_update_where; auto.
Qed.

Lemma markInviteLinkAsUsed_wf env inviteLinkId userId :
  keeps wf_kept (markInviteLinkAsUsed env inviteLinkId userId).
Proof.
  wf_open.
  - now rewrite map_update_where.
  - apply Forall_update_where; auto.
Qed.

Lemma deleteInviteLink_wf inviteLinkId :
  keeps wf_kept (memberRepo.deleteInviteLink inviteLinkId).
Proof.
  wf_open.
  - now apply delete_where_keys.
  - apply Forall_forall. intros l Hl. apply filter_In in Hl as [Hl _].
    rewrite Forall_forall in Hl2. now apply Hl2.
Qed.

Ltac wf_leaf :=
  first [ apply create_wf | apply createInviteLink_wf | apply softDelete_wf
        | apply markInviteLinkAsUsed_wf | apply deleteInviteLink_wf
        | intros ?; unfold after, wf_kept; run; tauto ].

(** X3. The keys of both tables are an invariant of the router: if the ids of
    the member rows and of the invite links are pairwise distinct and below
    their sequences before a procedure runs, they are so after it, whatever
    the input and whether or not the procedure throws. *)
Theorem router_keeps_keys env :
  (forall ctx_user input, keeps wf_kept (invite env ctx_user input))
  /\ (forall ctx_user input, keeps wf_kept (delete env ctx_user input))
  /\ (forall ctx_user raw,
         keeps wf_kept (generateInviteLink_request env ctx_user raw))
  /\ (forall input, keeps wf_kept (acceptInviteLink env input))
  /\ (forall code, keeps wf_kept (getInviteInfo env code))
  /\ (forall ctx_user publicId,
         keeps wf_kept (getInviteLinks env ctx_user publicId))
  /\ (forall ctx_user inviteLinkId,
         keeps wf_kept (memberRouter.deleteInviteLink ctx_user inviteLinkId)).
Proof.
  repeat match goal with |- _ /\ _ => split end; intros;
    unfold invite, delete, generateInviteLink_request, generateInviteLink,
           acceptInviteLink, getInviteInfo, getInviteLinks,
           memberRouter.deleteInviteLink;
    keeps_walk wf_kept_chains wf_leaf.
Qed.

(** *** Calls to the outside *)

Ltac emits_leaf :=
  intros ?; unfold after, emits_only; run; split_insert;
  first [ exists []; rewrite app_nil_r; split; [reflexivity | constructor]
        | eexists [_]; split; [reflexivity | repeat constructor] ].

(** X4. The link procedures never reach outside: generating, redeeming,
    previewing, listing and deleting invite links add only store writes to
    the trace, in every deployment.  In particular a redemption, which adds
    an active member, makes no call to the billing provider. *)
Theorem link_procedures_stay_inside env :
  (forall ctx_user raw,
      keeps (emits_only internalEvent)
            (generateInviteLink_request env ctx_user raw))
  /\ (forall input,
         keeps (emits_only internalEvent) (acceptInviteLink env input))
  /\ (forall code, keeps (emits_only internalEvent) (getInviteInfo env code))
  /\ (forall ctx_user publicId,
         keeps (emits_only internalEvent)
               (getInviteLinks env ctx_user publicId))
  /\ (forall ctx_user inviteLinkId,
         keeps (emits_only internalEvent)
               (memberRouter.deleteInviteLink ctx_user inviteLinkId)).
Proof.
  repeat match goal with |- _ /\ _ => split end; intros;
    unfold generateInviteLink_request, generateInviteLink,
           acceptInviteLink, getInviteInfo, getInviteLinks,
           memberRouter.deleteInviteLink;
    keeps_walk (emits_only_chains internalEvent) emits_leaf.
Qed.

(** X5. The direction of the seat calls: whatever the input, the deployment
    and the outcome, every call [invite] makes to the billing provider adds
    one seat and every call [delete] makes takes one away. *)
Theorem seat_calls_direction env :
  (forall ctx_user input,
      keeps (emits_only (seatsMovedBy 1)) (invite env ctx_user input))
  /\ (forall ctx_user input,
         keeps (emits_only (seatsMovedBy (-1))) (delete env ctx_user input)).
Proof.
  split; intros; unfold invite, delete.
  - keeps_walk (emits_only_chains (seatsMovedBy 1)) emits_leaf.
  - keeps_walk (emits_only_chains (seatsMovedBy (-1))) emits_leaf.
Qed.

(** X6. Outside the hosted deployment the billing provider is never called:
    when NEXT_PUBLIC_KAN_ENV is not "cloud", neither [invite] nor [delete]
    adds a seat call to the trace. *)
Theorem self_hosted_never_bills env :
  isCloud env = false ->
  (forall ctx_user input,
      keeps (emits_only notBilling) (invite env ctx_user input))
  /\ (forall ctx_user input,
         keeps (emits_only notBilling) (delete env ctx_user input)).
Proof.
  intros Hcloud. split; intros;
    unfold invite, invite_billing, delete, when; rewrite Hcloud;
    cbv beta iota zeta;
    keeps_walk (emits_only_chains notBilling) emits_leaf.
Qed.

(** ** Inviting by email, the other paths *)

(** The world with more events in its trace. *)
Lemma world_eta w : mkWorld (db w) (ticks w) (draws w) (trace w) = w.
Proof. now destruct w. Qed.

(** The three ways the billing branch can end: it lets the invite go on,
    it refuses a workspace without a plan, or the seat call fails. *)
Lemma invite_billing_outcomes env workspace w :
  (exists evs,
      invite_billing env workspace w
      = (Ok tt, mkWorld (db w) (ticks w) (draws w) (trace w ++ evs)))
  \/ (exists message,
         invite_billing env workspace w
         = (Thrown (TRPCError message NOT_FOUND), w))
  \/ (exists evs,
         invite_billing env workspace w
         = (Thrown seatsFailed,
            mkWorld (db w) (ticks w) (draws w) (trace w ++ evs))).
Proof.
  assert (Hnil : (Ok tt, w)
                 = (@Ok unit tt,
                    mkWorld (db w) (ticks w) (draws w) (trace w ++ [])))
    by now rewrite app_nil_r, world_eta.
  unfold invite_billing. destruct (isCloud env); run;
    [|left; exists []; exact Hnil].
  destruct (isNull _ && isNull _); run;
    [right; left; eexists; reflexivity|].
  destruct (stripeSubscriptionIdOf _) as [sid|];
    [|left; exists []; exact Hnil].
  destruct (negb _ && negb _); run; [|left; exists []; exact Hnil].
  destruct (stripe_ok env sid 1); run; repeat rewrite <- app_assoc.
  - left. eexists. reflexivity.
  - right. right. eexists. reflexivity.
Qed.

(** The rest of [invite] when the mailer reports success. *)
Lemma invite_rest_dispatched env userId input workspace (w1 : World) :
  magicLink_ok env (i_email input) (inviteCallback env w1) = true ->
  invite_rest env userId input workspace w1
  = (Ok (mkMemberRef (memberSeq (db w1)) (entropy env (draws w1))),
     mkWorld
       (mkDb (workspaceMembers (db w1)
              ++ [invitedMember env w1 userId input workspace])
             (workspaceInviteLinks (db w1)) (workspaces (db w1))
             (users (db w1)) (subscriptions (db w1))
             (memberSeq (db w1) + 1) (inviteLinkSeq (db w1)))
       (ticks w1) (S (draws w1))
       (trace w1 ++ [MemberInserted (memberSeq (db w1));
                     MagicLinkSent (i_email input) (inviteCallback env w1)
                                   true])).
Proof.
  intros Hmail. unfold invite_rest, inviteCallback in *. run.
  rewrite Hmail. run. repeat rewrite <- app_assoc. reflexivity.
Qed.

(** The rest of [invite] ends in the member's reference or in the
    dispatch error. *)
Lemma invite_rest_outcomes env userId input workspace w1 :
  (exists ref, fst (invite_rest env userId input workspace w1) = Ok ref)
  \/ fst (invite_rest env userId input workspace w1)
     = Thrown (dispatchFailed input).
Proof.
  destruct (magicLink_ok env (i_email input) (inviteCallback env w1)) eqn:E.
  - left. rewrite (invite_rest_dispatched _ _ _ _ _ E). eexists. reflexivity.
  - right. now rewrite (invite_rest_dispatch_failed _ _ _ _ _ E).
Qed.

Section InviteDelivered.

Variables (env : Env) (w : World) (userId : string) (input : InviteInput)
          (workspace : Workspace) (members : list Member).

Hypothesis authenticated : userId <> EmptyString.
Hypothesis found :
  returns (workspaceRepo.getByPublicIdWithMembers (i_workspacePublicId input))
          w (Some (workspace, members)).
Hypothesis admin :
  returns (assertUserInWorkspace userId (w_id workspace) "admin") w tt.
Hypothesis newcomer :
  existsb (fun member => m_email member == i_email input) members = false.
Hypothesis billed : returns (invite_billing env workspace) w tt.
Hypothesis delivered :
  magicLink_ok env (i_email input) (inviteCallback env w) = true.

(** X7. An invite that passes its checks and whose magic link is dispatched
    returns the id and public id of a new row, the last of the table:
    status [invited], role "member", created by the caller, linked to the
    account that has the email if there is one.  The link that was sent
    calls back with that public id, and the insertion and the dispatch are
    the last two effects, after whatever the billing branch did. *)
Theorem invite_delivered :
  let run := invite env (Some userId) input in
  returns run w (mkMemberRef (memberSeq (db w)) (entropy env (draws w)))
  /\ workspaceMembers (db (after run w))
     = workspaceMembers (db w)
       ++ [mkMember (memberSeq (db w)) (entropy env (draws w))
                    (i_email input)
                    (option_map u_id
                       (find (fun u => u_email u == i_email input)
                             (users (db w))))
                    (w_id workspace) userId "member" invited None None]
  /\ trace (after run w)
     = trace (after (invite_billing env workspace) w)
       ++ [MemberInserted (memberSeq (db w));
           MagicLinkSent (i_email input)
                         ("/boards?type=invite&memberPublicId="
                          ^^ entropy env (draws w)) true].
Proof.
  intros run. subst run. unfold returns, after.
  rewrite (invite_split env w userId input workspace members
             authenticated found admin newcomer).
  destruct (invite_billing_frame env workspace w) as [evs Hframe].
  unfold returns in billed.
  destruct (invite_billing env workspace w) as [r w1] eqn:Hrun.
  cbn [fst snd] in billed, Hframe. subst r w1.
  rewrite (bind_Ok _ _ _ _ _ Hrun).
  rewrite invite_rest_dispatched by exact delivered.
  cbn [fst snd db trace workspaceMembers]. repeat split.
Qed.

End InviteDelivered.

Lemma assertUserInWorkspace_outcomes userId workspaceId role w :
  assertUserInWorkspace userId workspaceId role w = (Ok tt, w)
  \/ exists message,
       assertUserInWorkspace userId workspaceId role w
       = (Thrown (TRPCError message FORBIDDEN), w).
Proof.
  unfold assertUserInWorkspace. run.
  destruct (existsb _ _); [now left | right; eexists; reflexivity].
Qed.

(** X8. A check of [invite] that fails leaves no mark: when the invite throws
    UNAUTHORIZED, NOT_FOUND, FORBIDDEN or CONFLICT - anything but
    INTERNAL_SERVER_ERROR - the world is exactly as before, store, clock,
    generator and trace.  And the error of the billing client never escapes
    as such: what [invite] throws is always a TRPCError. *)
Theorem invite_checks_fail_clean env w ctx_user input :
  let run := invite env ctx_user input in
  ~ throws run w ExternalError
  /\ (forall message code,
         throws run w (TRPCError message code) ->
         code <> INTERNAL_SERVER_ERROR ->
         after run w = w).
Proof.
  intros run. subst run. unfold throws, after.
  destruct ctx_user as [userId|];
    [destruct (userId == EmptyString) eqn:Hu|];
    try (unfold invite, requireUser; try rewrite Hu; run;
         split; [discriminate | reflexivity]).
  destruct (find (fun ws => w_publicId ws == i_workspacePublicId input)
                 (workspaces (db w))) as [workspace|] eqn:Hws.
  2:{ unfold invite, requireUser. rewrite Hu. run. rewrite Hws. run.
      split; [discriminate | reflexivity]. }
  destruct (assertUserInWorkspace_outcomes userId (w_id workspace) "admin" w)
    as [Hadm|[message Hadm]].
  2:{ unfold invite, requireUser. rewrite Hu. run. rewrite Hws. run.
      rewrite Hadm. split; [discriminate | reflexivity]. }
  set (members := filter (fun m => (m_workspaceId m =? w_id workspace)
                                   && isNull (m_deletedAt m))
                         (workspaceMembers (db w))).
  destruct (existsb (fun member => m_email member == i_email input) members)
    eqn:Hconf.
  { unfold invite, requireUser. rewrite Hu. run. rewrite Hws. run.
    rewrite Hadm. cbn [fst snd]. fold members. rewrite Hconf.
    run. split; [discriminate | reflexivity]. }
  assert (Hfound :
    returns (workspaceRepo.getByPublicIdWithMembers
               (i_workspacePublicId input)) w (Some (workspace, members))).
  { unfold returns. cbn. now rewrite Hws. }
  assert (Hadmin :
    returns (assertUserInWorkspace userId (w_id workspace) "admin") w tt).
  { unfold returns. now rewrite Hadm. }
  apply String.eqb_neq in Hu.
  rewrite (invite_split env w userId input workspace members
             Hu Hfound Hadmin Hconf).
  unfold bind.
  destruct (invite_billing_outcomes env workspace w)
    as [[evs ->]|[[message ->]|[evs ->]]].
  - destruct (invite_rest_outcomes env userId input workspace
                (mkWorld (db w) (ticks w) (draws w) (trace w ++ evs)))
      as [[ref Hr]|Hr];
      destruct (invite_rest _ _ _ _ _) as [r w2]; cbn [fst snd] in *;
      subst r; (split; [discriminate|]).
    + discriminate.
    + unfold dispatchFailed. intros message code [= <- <-]. congruence.
  - cbn [fst snd]. split; [discriminate | reflexivity].
  - cbn [fst snd]. split; [discriminate|].
    unfold seatsFailed. intros message code [= <- <-]. congruence.
Qed.

(** ** Removing a member, the other paths *)

(** X9. [delete] is all or nothing.  If it throws, the store is as it was and
    the billing provider was not called: every throw comes before the seat
    decrement, and a soft-delete that matched no row changed none.  If it
    returns, it returns success, and a failure of the billing client never
    escapes. *)
Theorem delete_all_or_nothing env w ctx_user input :
  let run := delete env ctx_user input in
  (forall e, throws run w e ->
             db (after run w) = db w
             /\ emits_only notBilling w (after run w)
             /\ e <> ExternalError)
  /\ (forall out, returns run w out -> out = mkSuccess true).
Proof.
  intros run. subst run. unfold throws, returns, after.
  assert (Hquiet : emits_only notBilling w w).
  { exists []. now rewrite app_nil_r. }
  destruct ctx_user as [userId|];
    [destruct (userId == EmptyString) eqn:Hu|];
    try (unfold delete, requireUser; try rewrite Hu; run;
         split; [intros e [= <-]; repeat split; [exact Hquiet | discriminate]
                | discriminate]).
  destruct (find (fun ws => w_publicId ws == d_workspacePublicId input)
                 (workspaces (db w))) as [workspace|] eqn:Hws.
  2:{ unfold delete, requireUser. rewrite Hu. run. rewrite Hws. run.
      split; [intros e [= <-]; repeat split; [exact Hquiet | discriminate]
             | discriminate]. }
  destruct (assertUserInWorkspace_outcomes userId (w_id workspace) "admin" w)
    as [Hadm|[message Hadm]].
  2:{ unfold delete, requireUser. rewrite Hu. run. rewrite Hws. run.
      rewrite Hadm.
      split; [intros e [= <-]; repeat split; [exact Hquiet | discriminate]
             | discriminate]. }
  destruct (find (fun m => m_publicId m == d_memberPublicId input)
                 (workspaceMembers (db w))) as [member|] eqn:Hm.
  2:{ unfold delete, requireUser. rewrite Hu. run. rewrite Hws. run.
      rewrite Hadm. run. rewrite Hm. run.
      split; [intros e [= <-]; repeat split; [exact Hquiet | discriminate]
             | discriminate]. }
  destruct (hd_error (map returningRef
                          (affected (softDelete_where (m_id member))
                                    (workspaceMembers (db w)))))
    as [ref|] eqn:Href.
  - unfold delete, requireUser. rewrite Hu. run. rewrite Hws. run.
    rewrite Hadm. run. rewrite Hm. run. rewrite Href. run.
    destruct (isCloud env); run; [|split; [discriminate | now intros out [= <-]]].
    destruct (stripeSubscriptionIdOf _) as [sid|]; run;
      [|split; [discriminate | now intros out [= <-]]].
    destruct (negb _ && negb _); run;
      [|split; [discriminate | now intros out [= <-]]].
    destruct (stripe_ok env sid (-1)); run;
      (split; [discriminate | now intros out [= <-]]).
  - pose proof (proj1 (hd_error_map_None returningRef _) Href) as Hnone.
    pose proof (proj1 (affected_nil_iff _ _) Hnone) as Hrows.
    unfold delete, requireUser. rewrite Hu. run. rewrite Hws. run.
    rewrite Hadm. run. rewrite Hm. run. rewrite Href. run.
    rewrite (update_where_none _ _ _ Hrows).
    split; [|discriminate]. intros e [= <-].
    split; [apply Db_eta|]. split; [|discriminate].
    exists [MemberUpdated (m_id member)]. split; [reflexivity|].
    repeat constructor.
Qed.

Section Removal.

Variables (env : Env) (w : World) (userId : string) (input : DeleteInput)
          (workspace : Workspace) (member : Member).

Hypothesis authenticated : userId <> EmptyString.
Hypothesis found :
  returns (workspaceRepo.getByPublicId (d_workspacePublicId input)) w
          (Some workspace).
Hypothesis admin :
  returns (assertUserInWorkspace userId (w_id workspace) "admin") w tt.
Hypothesis present :
  returns (getByPublicId (d_memberPublicId input)) w (Some member).
Hypothesis live : m_deletedAt member = None.

(** With a live row found, [delete] soft-deletes and goes on to the
    billing branch, whose outcome decides nothing any more. *)
Lemma delete_split :
  delete env (Some userId) input w
  = bind (delete_billing env workspace) (fun _ => ret (mkSuccess true))
         (removed env w userId member).
Proof.
  unfold returns in found, present. cbn in found, present.
  injection found as Hws. injection present as Hm.
  assert (Hcond : softDelete_where (m_id member) member = true).
  { unfold softDelete_where. now rewrite Z.eqb_refl, live. }
  destruct (affected_hd (softDelete_where (m_id member)) returningRef
              (workspaceMembers (db w)) member
              (proj1 (find_some _ _ Hm)) Hcond) as [ref Href].
  unfold delete.
  rewrite (bind_Ok _ _ _ _ _ (requireUser_Ok _ w authenticated)).
  run. rewrite Hws. run.
  rewrite (assertUserInWorkspace_Ok _ _ _ _ admin).
  run. rewrite Hm. run. rewrite Href. reflexivity.
Qed.

(** The billing branch of [delete] never throws and only adds events. *)
Lemma delete_billing_quiet (w1 : World) :
  exists evs,
    delete_billing env workspace w1
    = (Ok tt, mkWorld (db w1) (ticks w1) (draws w1) (trace w1 ++ evs))
    /\ Forall (seatsMovedBy (-1)) evs.
Proof.
  assert (Hnil : (Ok tt, w1)
                 = (@Ok unit tt,
                    mkWorld (db w1) (ticks w1) (draws w1) (trace w1 ++ [])))
    by now rewrite app_nil_r, world_eta.
  unfold delete_billing. destruct (isCloud env); run;
    [|exists []; split; [exact Hnil | constructor]].
  destruct (stripeSubscriptionIdOf _) as [sid|];
    [|exists []; split; [exact Hnil | constructor]].
  destruct (negb _ && negb _); run;
    [|exists []; split; [exact Hnil | constructor]].
  destruct (stripe_ok env sid (-1)); run; repeat rewrite <- app_assoc;
    eexists; (split; [reflexivity | repeat constructor]).
Qed.

(** X10. Removing a live member succeeds in every deployment and whatever the
    billing provider answers.  The row is found by its public id alone -
    nothing ties it to the workspace named in the request, of which the
    caller is an admin - and after the call the lookup gives the same row
    with [deletedAt] set to the time of the call and [deletedBy] to the
    caller.  The table is otherwise rewritten only where a live row carries
    the same id. *)
Theorem delete_removes :
  let run := delete env (Some userId) input in
  returns run w (mkSuccess true)
  /\ returns (getByPublicId (d_memberPublicId input)) (after run w)
             (Some (softDelete_set (clock env (ticks w)) userId member))
  /\ workspaceMembers (db (after run w))
     = update_where (softDelete_where (m_id member))
                    (softDelete_set (clock env (ticks w)) userId)
                    (workspaceMembers (db w))
  /\ (member_pk (db w) ->
      forall r, In r (workspaceMembers (db w)) -> r <> member ->
                In r (workspaceMembers (db (after run w)))).
Proof.
  intros run. subst run. unfold returns, after. rewrite delete_split.
  destruct (delete_billing_quiet (removed env w userId member))
    as (evs & Hrun & _).
  rewrite (bind_Ok _ _ _ _ _ Hrun). cbn [ret fst snd db removed].
  unfold returns in present. cbn in present. injection present as Hm.
  split; [reflexivity|]. split; [|split; [reflexivity|]].
  - cbn. rewrite (find_update_where (softDelete_where (m_id member))
               (softDelete_set (clock env (ticks w)) userId)
               (fun m => m_publicId m == d_memberPublicId input)
               (workspaceMembers (db w)) member (fun _ => eq_refl) Hm).
    unfold softDelete_where. now rewrite Z.eqb_refl, live.
  - intros Hpk r Hr Hneq. cbn [workspaceMembers].
    unfold update_where. apply in_map_iff. exists r. split; [|exact Hr].
    unfold softDelete_where.
    destruct (Z.eqb_spec (m_id r) (m_id member)) as [E|]; [|reflexivity].
    exfalso. apply Hneq.
    exact (NoDup_map_eq m_id _ r member Hpk Hr
             (proj1 (find_some _ _ Hm)) E).
Qed.

End Removal.

Lemma delete_removes_witness :
  let run := delete (Acme.env false true true) (Some "u-alice")
                    (mkDeleteInput "ws_acme_000001" "mem_erin_00004") in
  let w := Globex.world [] in
  m_workspaceId Globex.erinMember <> w_id Acme.acme
  /\ returns run w (mkSuccess true)
  /\ returns (getByPublicId "mem_erin_00004") (after run w)
             (Some (mkMember 4 "mem_erin_00004" "erin@example.com"
                             (Some "u-erin") 2 "u-gina" "member" active
                             (Some 1000) (Some "u-alice"))).
Proof.
  cbv zeta. split; [discriminate|].
  destruct (delete_removes
              (Acme.env false true true) (Globex.world []) "u-alice"
              (mkDeleteInput "ws_acme_000001" "mem_erin_00004")
              Acme.acme Globex.erinMember
              ltac:(discriminate) eq_refl eq_refl eq_refl eq_refl)
    as (Hrun & Hrow & _).
  exact (conj Hrun Hrow).
Defined.

(** ** An invite and its removal *)

Lemma find_snoc {A} (p : A -> bool) (l : list A) (x : A) :
  find p l = None -> p x = true -> find p (l ++ [x]) = Some x.
Proof.
  induction l as [|y l IH]; cbn; intros Hl Hx; [now rewrite Hx|].
  destruct (p y); [discriminate | now apply IH].
Qed.

Section InviteThenRemove.

Variables (env : Env) (w : World) (userId : string) (input : InviteInput)
          (workspace : Workspace) (members : list Member)
          (subs : list Subscription) (team : Subscription) (sid : string).

Hypothesis authenticated : userId <> EmptyString.
Hypothesis found :
  returns (workspaceRepo.getByPublicIdWithMembers (i_workspacePublicId input))
          w (Some (workspace, members)).
Hypothesis admin :
  returns (assertUserInWorkspace userId (w_id workspace) "admin") w tt.
Hypothesis newcomer :
  existsb (fun member => m_email member == i_email input) members = false.
Hypothesis cloud : isCloud env = true.
Hypothesis plans :
  returns (subscriptionRepo.getByReferenceId (w_publicId workspace)) w subs.
Hypothesis teamPlan : getSubscriptionByPlan subs "team" = Some team.
Hypothesis handle : s_stripeSubscriptionId team = Some sid.
Hypothesis handle_truthy : sid <> EmptyString.
Hypothesis limited : hasUnlimitedSeats subs = false.
Hypothesis increment_ok : stripe_ok env sid 1 = true.
Hypothesis decrement_ok : stripe_ok env sid (-1) = true.
Hypothesis delivered :
  magicLink_ok env (i_email input) (inviteCallback env w) = true.
Hypothesis unused_publicId :
  returns (getByPublicId (entropy env (draws w))) w None.

(** The world after the invite went through. *)
Lemma invite_billed_run :
  invite env (Some userId) input w
  = (Ok (mkMemberRef (memberSeq (db w)) (entropy env (draws w))),
     mkWorld
       (mkDb (workspaceMembers (db w)
              ++ [invitedMember env w userId input workspace])
             (workspaceInviteLinks (db w)) (workspaces (db w))
             (users (db w)) (subscriptions (db w))
             (memberSeq (db w) + 1) (inviteLinkSeq (db w)))
       (ticks w) (S (draws w))
       (trace w ++ [SeatsUpdated sid 1 true;
                    MemberInserted (memberSeq (db w));
                    MagicLinkSent (i_email input) (inviteCallback env w)
                                  true])).
Proof.
  rewrite (invite_split env w userId input workspace members
             authenticated found admin newcomer).
  pose proof (invite_billing_seat env w workspace subs team sid
                cloud plans teamPlan handle handle_truthy limited) as Hb.
  rewrite increment_ok in Hb. rewrite (bind_Ok _ _ _ _ _ Hb).
  rewrite invite_rest_dispatched by exact delivered.
  unfold invitedMember, inviteCallback. cbn [db ticks draws trace].
  now rewrite <- app_assoc.
Qed.

(** X11. Seats balance over an invite and the removal of the invited member.
    In the hosted deployment, with a team subscription that has a handle
    and no unlimited seats and a billing provider that accepts both calls,
    an invite that is delivered followed by [delete] on the public id it
    returned leaves the counted seats where they were: one call adds a
    seat, one takes it away.  The removal succeeds and the invited row is
    soft-deleted. *)
Theorem invite_then_delete_balances :
  let first := invite env (Some userId) input in
  let w1 := after first w in
  let second :=
    delete env (Some userId)
           (mkDeleteInput (i_workspacePublicId input)
                          (entropy env (draws w))) in
  returns first w (mkMemberRef (memberSeq (db w)) (entropy env (draws w)))
  /\ seatCount sid (trace w1) = seatCount sid (trace w) + 1
  /\ returns second w1 (mkSuccess true)
  /\ seatCount sid (trace (after second w1)) = seatCount sid (trace w)
  /\ returns (getByPublicId (entropy env (draws w))) (after second w1)
             (Some (softDelete_set (clock env (ticks w)) userId
                      (invitedMember env w userId input workspace))).
Proof.
  intros first w1 second. subst first w1 second.
  set (row := invitedMember env w userId input workspace).
  pose proof invite_billed_run as Hrun1. fold row in Hrun1.
  match type of Hrun1 with _ = (_, ?w') => set (w1 := w') in * end.
  assert (E1 : after (invite env (Some userId) input) w = w1)
    by (unfold after; now rewrite Hrun1).
  rewrite !E1. unfold returns at 1. rewrite Hrun1. cbn [fst].
  unfold returns in found, plans, unused_publicId.
  cbn in found, plans, unused_publicId.
  assert (Hws : find (fun ws => w_publicId ws == i_workspacePublicId input)
                     (workspaces (db w)) = Some workspace).
  { destruct (find _ (workspaces (db w))); [|discriminate found].
    now injection found as ->. }
  injection plans as Hsubs. injection unused_publicId as Hfresh.
  assert (Hfound1 :
    returns (workspaceRepo.getByPublicId (i_workspacePublicId input)) w1
            (Some workspace)).
  { unfold returns. cbn. now rewrite Hws. }
  assert (Hadmin1 :
    returns (assertUserInWorkspace userId (w_id workspace) "admin") w1 tt).
  { unfold returns, assertUserInWorkspace in admin |- *.
    cbn in admin |- *. rewrite existsb_app.
    destruct (existsb _ (workspaceMembers (db w))); [reflexivity|].
    discriminate admin. }
  assert (Hrow : find (fun m => m_publicId m == entropy env (draws w))
                      (workspaceMembers (db w) ++ [row]) = Some row).
  { apply find_snoc; [exact Hfresh | apply String.eqb_refl]. }
  assert (Hpresent1 :
    returns (getByPublicId (entropy env (draws w))) w1 (Some row)).
  { unfold returns. cbn. now rewrite Hrow. }
  pose proof (delete_split env w1 userId
                (mkDeleteInput (i_workspacePublicId input)
                               (entropy env (draws w)))
                workspace row authenticated Hfound1 Hadmin1 Hpresent1
                eq_refl) as Hsplit.
  assert (Hbilling :
    delete_billing env workspace (removed env w1 userId row)
    = (Ok tt,
       mkWorld (db (removed env w1 userId row))
               (ticks (removed env w1 userId row))
               (draws (removed env w1 userId row))
               (trace (removed env w1 userId row)
                ++ [SeatsUpdated sid (-1) true]))).
  { apply String.eqb_neq in handle_truthy.
    unfold delete_billing. rewrite cloud. run. cbn [removed db subscriptions].
    subst w1. cbn [db subscriptions]. rewrite Hsubs, teamPlan.
    cbn [stripeSubscriptionIdOf]. rewrite handle, handle_truthy, limited.
    run. rewrite decrement_ok. reflexivity. }
  rewrite (bind_Ok _ _ _ _ _ Hbilling) in Hsplit.
  cbv beta delta [ret] in Hsplit.
  match type of Hsplit with _ = (_, ?w') => set (w2 := w') in * end.
  assert (E2 : after (delete env (Some userId)
                        (mkDeleteInput (i_workspacePublicId input)
                                       (entropy env (draws w)))) w1 = w2)
    by (unfold after; now rewrite Hsplit).
  rewrite !E2. unfold returns at 1. rewrite Hsplit. cbn [fst].
  split; [reflexivity|]. split.
  { subst w1. cbn [trace]. rewrite seatCount_app. cbn [seatCount].
    rewrite String.eqb_refl. lia. }
  split; [reflexivity|]. split.
  - subst w2 w1. cbn [trace removed]. rewrite !seatCount_app.
    cbn [seatCount]. rewrite String.eqb_refl. lia.
  - assert (Hcond : softDelete_where (m_id row) row = true).
    { subst row. unfold softDelete_where, invitedMember.
      cbn [m_id m_deletedAt isNull]. now rewrite Z.eqb_refl. }
    subst w2 w1. clearbody row. unfold returns, getByPublicId, removed. run.
    rewrite (find_update_where (softDelete_where (m_id row))
               (softDelete_set (clock env (ticks w)) userId)
               (fun m => m_publicId m == entropy env (draws w))
               (workspaceMembers (db w) ++ [row]) row (fun _ => eq_refl)
               Hrow).
    now rewrite Hcond.
Qed.

End InviteThenRemove.

(** ** Redeeming, previewing and listing links *)

(** X13. A redemption that fails writes nothing: whatever it throws, the store
    and the trace are as before and no id was drawn.  Every check comes
    before the first write. *)
Theorem acceptInviteLink_failure_writes_nothing env w input e :
  throws (acceptInviteLink env input) w e ->
  db (after (acceptInviteLink env input) w) = db w
  /\ trace (after (acceptInviteLink env input) w) = trace w
  /\ draws (after (acceptInviteLink env input) w) = draws w.
Proof.
  unfold throws, after.
  destruct (find (fun l => l_inviteCode l == a_inviteCode input)
                 (workspaceInviteLinks (db w))) as [invite|] eqn:Hl.
  2:{ unfold acceptInviteLink. run. rewrite Hl. now intros _. }
  destruct (l_isUsed invite) eqn:Hused.
  { unfold acceptInviteLink. run. rewrite Hl, Hused. now intros _. }
  destruct (l_expiresAt invite <? clock env (ticks w)) eqn:Hexp.
  { unfold acceptInviteLink. run. rewrite Hl, Hused. run. rewrite Hexp.
    now intros _. }
  destruct (find (fun ws => w_id ws =? l_workspaceId invite)
                 (workspaces (db w))) as [workspace|] eqn:Hws.
  2:{ unfold acceptInviteLink. run. rewrite Hl, Hused. run. rewrite Hexp.
      run. rewrite Hws. now intros _. }
  destruct (existsb (fun m => option_eqb (m_userId m) (a_userId input)
                              && (m_workspaceId m =? l_workspaceId invite)
                              && MemberStatus_eqb (m_status m) active
                              && isNull (m_deletedAt m))
                    (workspaceMembers (db w))) eqn:Hmem.
  { unfold acceptInviteLink. run. rewrite Hl, Hused. run. rewrite Hexp.
    run. rewrite Hws. run. rewrite Hmem. now intros _. }
  destruct (find (fun u => u_id u == a_userId input) (users (db w)))
    as [user|] eqn:Hu.
  2:{ unfold acceptInviteLink. run. rewrite Hl, Hused. run. rewrite Hexp.
      run. rewrite Hws. run. rewrite Hmem. run. rewrite Hu. now intros _. }
  unfold acceptInviteLink. run. rewrite Hl, Hused. run. rewrite Hexp.
  run. rewrite Hws. run. rewrite Hmem. run. rewrite Hu. discriminate.
Qed.

Lemma acceptInviteLink_failure_writes_nothing_witness :
  let run := acceptInviteLink (Acme.env false true true)
               (mkAcceptInviteLinkInput "AbCdEfGhIjKl" "u-dave") in
  throws run (Acme.world [])
         (TRPCError "User is already a member of this workspace" CONFLICT)
  /\ db (after run (Acme.world [])) = db (Acme.world []).
Proof.
  cbv zeta. split; [reflexivity|].
  apply (acceptInviteLink_failure_writes_nothing
           (Acme.env false true true) (Acme.world [])
           (mkAcceptInviteLinkInput "AbCdEfGhIjKl" "u-dave")
           (TRPCError "User is already a member of this workspace" CONFLICT)
           eq_refl).
Defined.

(** X14. The preview and the redemption agree.  [getInviteInfo] writes nothing,
    and when it answers, a redemption of the same code at the same reading
    of the clock is refused with BAD_REQUEST exactly when the preview says
    the link is used or expired. *)
Theorem getInviteInfo_agrees_with_redemption env w code userId info :
  returns (getInviteInfo env code) w info ->
  db (after (getInviteInfo env code) w) = db w
  /\ trace (after (getInviteInfo env code) w) = trace w
  /\ ((exists message,
          throws (acceptInviteLink env (mkAcceptInviteLinkInput code userId))
                 w (TRPCError message BAD_REQUEST))
      <-> info_isUsed info = true \/ info_isExpired info = true).
Proof.
  unfold returns, after.
  pose proof (proj1 (acceptInviteLink_BAD_REQUEST_iff env w
                       (mkAcceptInviteLinkInput code userId))) as Hiff.
  cbn [a_inviteCode] in Hiff. rewrite Hiff. clear Hiff.
  unfold getInviteInfo. run.
  destruct (find (fun l => l_inviteCode l == code)
                 (workspaceInviteLinks (db w))) as [invite|]; run;
    [|discriminate].
  destruct (find _ (workspaces (db w))) as [workspace|]; run;
    [|discriminate].
  intros [= <-]. cbn [info_isUsed info_isExpired].
  split; [reflexivity|]. split; [reflexivity|].
  rewrite redeemable_false, Z.ltb_lt. reflexivity.
Qed.

Lemma getInviteInfo_agrees_with_redemption_witness :
  returns (getInviteInfo (Acme.env false true true) "MnOpQrStUvWx")
          (Acme.world [])
          (mkInviteInfo "Acme" "acme" (Some "Alice") 900000 false true)
  /\ exists message,
       throws (acceptInviteLink (Acme.env false true true)
                 (mkAcceptInviteLinkInput "MnOpQrStUvWx" "u-bob"))
              (Acme.world []) (TRPCError message BAD_REQUEST).
Proof.
  split; [reflexivity|].
  apply (proj2 (proj2 (getInviteInfo_agrees_with_redemption
                         (Acme.env false true true) (Acme.world [])
                         "MnOpQrStUvWx" "u-bob"
                         (mkInviteInfo "Acme" "acme" (Some "Alice") 900000
                                       false true)
                         eq_refl))).
  left. reflexivity.
Defined.

Section Listing.

Variables (env : Env) (w : World) (userId : string) (publicId : string)
          (workspace : Workspace).

Hypothesis authenticated : userId <> EmptyString.
Hypothesis found :
  returns (workspaceRepo.getByPublicId publicId) w (Some workspace).
Hypothesis admin :
  returns (assertUserInWorkspace userId (w_id workspace) "admin") w tt.

(** X15. What an admin is shown.  [getInviteLinks] writes nothing and lists
    exactly the stored links of the workspace that are unused and expire
    strictly after the current time.  Every link it lists would pass the
    validity check of a redemption at that time; a link that expires at
    this very instant still passes that check but is not listed. *)
Theorem getInviteLinks_lists_live_links :
  let run := getInviteLinks env (Some userId) publicId in
  let now := clock env (ticks w) in
  exists items,
    returns run w items
    /\ db (after run w) = db w
    /\ (forall item,
           In item items <->
           exists l, In l (workspaceInviteLinks (db w))
                     /\ l_workspaceId l = w_id workspace
                     /\ l_isUsed l = false
                     /\ now < l_expiresAt l
                     /\ item = listed l)
    /\ (forall l, In (listed l) items -> now <= l_expiresAt l)
    /\ (forall l, l_expiresAt l = now -> ~ In (listed l) items).
Proof.
  intros run now. subst run.
  unfold returns in found. cbn in found. injection found as Hws.
  unfold returns, after, getInviteLinks.
  rewrite (bind_Ok _ _ _ _ _ (requireUser_Ok _ w authenticated)).
  run. rewrite Hws. run.
  rewrite (assertUserInWorkspace_Ok _ _ _ _ admin).
  unfold getInviteLinksByWorkspaceId. run. fold now.
  eexists. split; [reflexivity|]. split; [reflexivity|].
  assert (Hiff : forall item,
    In item
       (map (fun link =>
               mkInviteLinkItem (l_id link) (l_inviteCode link) (l_role link)
                                (l_createdAt link) (l_expiresAt link))
            (filter (fun link => now <? l_expiresAt link)
               (filter (fun l => (l_workspaceId l =? w_id workspace)
                                 && Bool.eqb (l_isUsed l) false)
                       (workspaceInviteLinks (db w)))))
    <-> exists l, In l (workspaceInviteLinks (db w))
                  /\ l_workspaceId l = w_id workspace
                  /\ l_isUsed l = false
                  /\ now < l_expiresAt l
                  /\ item = listed l).
  { intros item. rewrite in_map_iff. split.
    - intros (l & <- & Hl). apply filter_In in Hl as [Hl Hexp].
      apply filter_In in Hl as [Hl Hcond].
      apply andb_true_iff in Hcond as [Hw Hu].
      exists l. repeat split; auto.
      + now apply Z.eqb_eq.
      + now destruct (l_isUsed l).
      + now apply Z.ltb_lt.
    - intros (l & Hl & Hw & Hu & Hexp & ->). exists l.
      split; [reflexivity|]. apply filter_In. split; [|now apply Z.ltb_lt].
      apply filter_In. split; [exact Hl|].
      apply andb_true_iff. split; [now apply Z.eqb_eq | now rewrite Hu]. }
  split; [exact Hiff|]. split.
  - intros l Hin. apply Hiff in Hin as (l' & _ & _ & _ & Hexp & E).
    unfold listed in E. injection E as _ _ _ _ E. lia.
  - intros l Hnow Hin. apply Hiff in Hin as (l' & _ & _ & _ & Hexp & E).
    unfold listed in E. injection E as _ _ _ _ E. lia.
Qed.

End Listing.

Lemma getInviteLinks_lists_live_links_witness :
  exists items,
    returns (getInviteLinks (Acme.env false true true) (Some "u-alice")
                            "ws_acme_000001") (Acme.world []) items
    /\ (In (listed Acme.link1) items /\ ~ In (listed Acme.link2) items).
Proof.
  destruct (getInviteLinks_lists_live_links
              (Acme.env false true true) (Acme.world []) "u-alice"
              "ws_acme_000001" Acme.acme
              ltac:(discriminate) eq_refl eq_refl)
    as (items & Hrun & _ & Hiff & _).
  exists items. split; [exact Hrun|]. split.
  - apply Hiff. exists Acme.link1.
    repeat split; first [reflexivity | cbn; tauto].
  - intros Hin. apply Hiff in Hin as (l & Hl & _ & Hunused & _ & E).
    cbn in Hl. unfold listed in E.
    destruct Hl as [<-|[<-|[<-|[]]]]; discriminate.
Defined.

(** ** Generating a link, every path *)

Lemma parseRole_values r role :
  parseRole r = Some role -> role = "member" \/ role = "admin".
Proof.
  destruct r as [r|]; cbn; [|intros [= <-]; now left].
  destruct (r == "member") eqn:Em; cbn.
  - intros [= <-]. left. now apply String.eqb_eq.
  - destruct (r == "admin") eqn:Ea; [|discriminate].
    intros [= <-]. right. now apply String.eqb_eq.
Qed.

Lemma parseGenerateInviteLinkInput_values raw input :
  parseGenerateInviteLinkInput raw = Some input ->
  (g_role input = "member" \/ g_role input = "admin")
  /\ 1 <= g_expiresIn input <= 30
  /\ (12 <= String.length (g_workspacePublicId input))%nat.
Proof.
  unfold parseGenerateInviteLinkInput.
  destruct (min12 _) eqn:Hlen; [|discriminate].
  destruct (parseRole _) as [r|] eqn:Hr; [|discriminate].
  destruct (parseExpiresIn _) as [n|] eqn:Hn; [|discriminate].
  intros [= <-]. cbn. split; [exact (parseRole_values _ _ Hr)|].
  split; [exact (parseExpiresIn_range _ _ Hn)|].
  unfold min12 in Hlen. now apply Nat.leb_le.
Qed.

(** X16. A generate-invite-link request stores one link or none, and what
    it stores is bounded by the schema.  If the request throws before the
    insert - refused input, no caller, unknown workspace, caller not an
    admin, no plan in the hosted deployment - the world is exactly as
    before: no code was drawn and nothing was stored.  If the insert is
    refused by the database, the code drawn is one a stored link carries,
    and the link rows, the member rows and the trace are as before; the
    code was drawn and a value of the sequence is spent.  If the request
    returns, exactly one link was appended, under a code no link carried:
    it is unused, its role is "member" or "admin", its expiration is the
    local reading of the time of the call moved ahead by a number of days
    between 1 and 30, each of 86400000 milliseconds, and converted back;
    on a host with a fixed offset that is between 1 and 30 times 24 hours
    after the call.  The reply carries the code, the expiration and the URL
    made of the base URL and the code. *)
Theorem generateInviteLink_request_all_or_nothing env w ctx_user raw :
  let run := generateInviteLink_request env ctx_user raw in
  let now := clock env (ticks w) in
  match fst (run w) with
  | Thrown (DatabaseError constraint) =>
      inviteCode_taken (db w) (entropy env (draws w)) = true
      /\ workspaceInviteLinks (db (after run w)) = workspaceInviteLinks (db w)
      /\ workspaceMembers (db (after run w)) = workspaceMembers (db w)
      /\ inviteLinkSeq (db (after run w)) = inviteLinkSeq (db w) + 1
      /\ draws (after run w) = S (draws w)
      /\ trace (after run w) = trace w
  | Thrown _ => after run w = w
  | Ok out =>
      exists l n,
        workspaceInviteLinks (db (after run w))
        = workspaceInviteLinks (db w) ++ [l]
        /\ inviteCode_taken (db w) (l_inviteCode l) = false
        /\ l_isUsed l = false
        /\ (l_role l = "member" \/ l_role l = "admin")
        /\ 1 <= n <= 30
        /\ l_expiresAt l
           = now + LocalTZA env now true + n * 86400000
             - LocalTZA env (now + LocalTZA env now true + n * 86400000)
                        false
        /\ (forall offset,
               (forall t isUTC, LocalTZA env t isUTC = offset) ->
               now + 1 * 86400000 <= l_expiresAt l <= now + 30 * 86400000)
        /\ inviteCode out = l_inviteCode l
        /\ expiresAt out = l_expiresAt l
        /\ inviteLink out = baseUrl env ^^ "/invite/" ^^ l_inviteCode l
  end.
Proof.
  intros run now. subst run. unfold after, generateInviteLink_request.
  destruct (parseGenerateInviteLinkInput raw) as [input|] eqn:Hparse;
    [|reflexivity].
  apply parseGenerateInviteLinkInput_values in Hparse
    as (Hrole & Hdays & _).
  unfold generateInviteLink.
  destruct ctx_user as [userId|];
    [destruct (userId == EmptyString) eqn:Hu|];
    try (unfold requireUser; try rewrite Hu; run; reflexivity).
  unfold requireUser. rewrite Hu. run.
  destruct (find _ (workspaces (db w))) as [workspace|]; run;
    [|reflexivity].
  destruct (assertUserInWorkspace_outcomes userId (w_id workspace) "admin" w)
    as [->|[message ->]]; run; [|reflexivity].
  destruct (inviteCode_taken (db w) (entropy env (draws w))) eqn:Htaken.
  - destruct (isCloud env); run;
      [destruct (isNull _ && isNull _); run; [reflexivity|]|];
      rewrite Htaken; run; repeat split.
  - assert (Hstored :
      exists l n,
        workspaceInviteLinks (db w)
        ++ [mkInviteLink (inviteLinkSeq (db w)) (w_id workspace)
                         (entropy env (draws w)) (g_role input) false userId
                         (clock env (S (ticks w)))
                         (setDate_plus env now (g_expiresIn input))
                         None None]
        = workspaceInviteLinks (db w) ++ [l]
        /\ inviteCode_taken (db w) (l_inviteCode l) = false
        /\ l_isUsed l = false
        /\ (l_role l = "member" \/ l_role l = "admin")
        /\ 1 <= n <= 30
        /\ l_expiresAt l
           = now + LocalTZA env now true + n * 86400000
             - LocalTZA env (now + LocalTZA env now true + n * 86400000)
                        false
        /\ (forall offset,
               (forall t isUTC, LocalTZA env t isUTC = offset) ->
               now + 1 * 86400000 <= l_expiresAt l <= now + 30 * 86400000)
        /\ entropy env (draws w) = l_inviteCode l
        /\ setDate_plus env now (g_expiresIn input) = l_expiresAt l
        /\ baseUrl env ^^ "/invite/" ^^ entropy env (draws w)
           = baseUrl env ^^ "/invite/" ^^ l_inviteCode l).
    { eexists. exists (g_expiresIn input). split; [reflexivity|].
      cbn [l_inviteCode l_isUsed l_role l_expiresAt].
      rewrite setDate_plus_eq.
      repeat match goal with |- _ /\ _ => split end;
        try assumption; try reflexivity; try lia.
      intros offset Hfixed. rewrite !Hfixed. lia. }
    destruct (isCloud env); run;
      [destruct (isNull _ && isNull _); run; [reflexivity|]|];
      rewrite Htaken; exact Hstored.
Qed.

(** ** From a generated link to a member *)

Section GenerateThenRedeem.

Variables (env : Env) (w : World) (adminId : string)
          (raw : GenerateInviteLinkRaw) (input : GenerateInviteLinkInput)
          (workspace : Workspace) (members : list Member)
          (subs : list Subscription) (redeemer : string) (user : User).

Hypothesis authenticated : adminId <> EmptyString.
Hypothesis accepted : parseGenerateInviteLinkInput raw = Some input.
Hypothesis found :
  returns (workspaceRepo.getByPublicIdWithMembers (g_workspacePublicId input))
          w (Some (workspace, members)).
Hypothesis admin :
  returns (assertUserInWorkspace adminId (w_id workspace) "admin") w tt.
Hypothesis plans :
  returns (subscriptionRepo.getByReferenceId (w_publicId workspace)) w subs.
Hypothesis subscribed :
  isCloud env = true ->
  isNull (getSubscriptionByPlan subs "team")
  && isNull (getSubscriptionByPlan subs "pro") = false.
Hypothesis unused_code :
  returns (getInviteLinkByCode (entropy env (draws w))) w None.
Hypothesis workspace_by_id :
  returns (workspaceRepo.getById (w_id workspace)) w (Some workspace).
Hypothesis outsider :
  returns (workspaceRepo.isUserInWorkspace redeemer (w_id workspace)) w
          false.
Hypothesis account : returns (userRepo.getById redeemer) w (Some user).
Hypothesis in_time :
  clock env (S (S (ticks w)))
  <= setDate_plus env (clock env (ticks w)) (g_expiresIn input).

Lemma generateInviteLink_request_run :
  generateInviteLink_request env (Some adminId) raw w
  = (Ok (mkGenerateInviteLinkOutput
           (baseUrl env ^^ "/invite/" ^^ entropy env (draws w))
           (entropy env (draws w))
           (setDate_plus env (clock env (ticks w)) (g_expiresIn input))),
     mkWorld
       (mkDb (workspaceMembers (db w))
             (workspaceInviteLinks (db w)
              ++ [generatedLink env w adminId input workspace])
             (workspaces (db w)) (users (db w)) (subscriptions (db w))
             (memberSeq (db w)) (inviteLinkSeq (db w) + 1))
       (S (S (ticks w))) (S (draws w))
       (trace w ++ [InviteLinkInserted (inviteLinkSeq (db w))])).
Proof.
  unfold generateInviteLink_request. rewrite accepted.
  unfold generateInviteLink.
  rewrite (bind_Ok _ _ _ _ _ (requireUser_Ok _ w authenticated)).
  unfold returns in found, plans. cbn in found, plans.
  injection found as Hws. injection plans as Hsubs.
  run. rewrite Hws. run.
  rewrite (assertUserInWorkspace_Ok _ _ _ _ admin). run.
  pose proof (unused_inviteCode _ _ unused_code) as Hfree.
  unfold generatedLink.
  destruct (isCloud env); run.
  - rewrite Hsubs, (subscribed eq_refl). run. now rewrite Hfree.
  - now rewrite Hfree.
Qed.

(** X17. A generated link, redeemed.  When an admin's request stores a link
    under a code not yet in the table, and a user with an account who is not
    yet a member redeems that code no later than the expiration, the
    redemption succeeds and the table gains one member: active, in the
    workspace the link was generated for, with the role asked for at
    generation, linked to the redeemer and recorded as created by the admin
    who generated the link. *)
Theorem generated_link_redeems :
  let gen := generateInviteLink_request env (Some adminId) raw in
  let code := entropy env (draws w) in
  let redeem :=
    acceptInviteLink env (mkAcceptInviteLinkInput code redeemer) in
  returns gen w
          (mkGenerateInviteLinkOutput
             (baseUrl env ^^ "/invite/" ^^ code) code
             (setDate_plus env (clock env (ticks w)) (g_expiresIn input)))
  /\ returns redeem (after gen w)
             (mkAcceptInviteLinkOutput true (Some (w_publicId workspace))
                                       (Some (w_slug workspace)))
  /\ workspaceMembers (db (after redeem (after gen w)))
     = workspaceMembers (db w)
       ++ [mkMember (memberSeq (db w)) (entropy env (S (draws w)))
                    (u_email user) (Some redeemer) (w_id workspace) adminId
                    (g_role input) active None None].
Proof.
  intros gen code redeem. subst gen code redeem.
  pose proof generateInviteLink_request_run as Hgen.
  match type of Hgen with _ = (_, ?w') => set (w1 := w') in * end.
  assert (E1 : after (generateInviteLink_request env (Some adminId) raw) w
               = w1) by (unfold after; now rewrite Hgen).
  rewrite !E1. unfold returns at 1. rewrite Hgen. cbn [fst].
  split; [reflexivity|].
  unfold returns in unused_code, workspace_by_id, outsider, account.
  cbn in unused_code, workspace_by_id, outsider, account.
  injection unused_code as Hfresh. injection workspace_by_id as Hws.
  injection outsider as Hout. injection account as Hacc.
  assert (Hid : u_id user = redeemer).
  { apply find_some in Hacc as [_ H]. now apply String.eqb_eq. }
  assert (Hlink :
    returns (getInviteLinkByCode
               (a_inviteCode
                  (mkAcceptInviteLinkInput (entropy env (draws w)) redeemer)))
            w1 (Some (generatedLink env w adminId input workspace))).
  { unfold returns. cbn. f_equal.
    apply find_snoc; [exact Hfresh | apply String.eqb_refl]. }
  assert (Hok : redeemable (clock env (ticks w1))
                           (generatedLink env w adminId input workspace)
                = true).
  { apply redeemable_spec. split; [reflexivity | exact in_time]. }
  pose proof (acceptInviteLink_run env w1
                (mkAcceptInviteLinkInput (entropy env (draws w)) redeemer)
                (generatedLink env w adminId input workspace) workspace user Hlink Hok) as Hrun.
  unfold returns, after. rewrite Hrun.
  - cbn [fst snd db workspaceMembers]. split; [reflexivity|].
    unfold redeemedMember. subst w1. unfold generatedLink. cbn.
    now rewrite Hid.
  - unfold returns. cbn. now rewrite Hws.
  - unfold returns. cbn. now rewrite Hout.
  - unfold returns. cbn. now rewrite Hacc.
Qed.

End GenerateThenRedeem.

(** ** The repository on its own *)

Lemma find_snoc_none {A} (p : A -> bool) (l : list A) (x : A) :
  find p l = None -> p x = false -> find p (l ++ [x]) = None.
Proof.
  induction l as [|y l IH]; cbn; intros Hl Hx; [now rewrite Hx|].
  destruct (p y); [discriminate | now apply IH].
Qed.

Section EmailInviteLifecycle.

Variables (env : Env) (w : World) (memberInput : MemberInput)
          (account : string).

Hypothesis as_invited : status memberInput = invited.
Hypothesis no_pending :
  returns (getByEmailAndStatus (email memberInput) invited) w None.
Hypothesis no_active :
  returns (getByEmailAndStatus (email memberInput) active) w None.
Hypothesis fresh : memberSeq_fresh (db w).

(** X18. From invited to active.  When no live row has the email yet, a row
    created as [invited] is the one [getByEmailAndStatus] finds for that
    email among the invited; [acceptInvite] on the id that [create]
    returned reports that row, and afterwards the email is found among the
    active, with the account linked and every other column as created, and
    no longer among the invited. *)
Theorem invited_then_accepted :
  let row :=
    mkMember (memberSeq (db w)) (entropy env (draws w)) (email memberInput)
             (userId memberInput) (workspaceId memberInput)
             (createdBy memberInput) (role memberInput) invited None None in
  let ref := mkMemberRef (memberSeq (db w)) (entropy env (draws w)) in
  let w1 := after (create env memberInput) w in
  let w2 := after (acceptInvite (id ref) account) w1 in
  returns (create env memberInput) w (Some ref)
  /\ returns (getByEmailAndStatus (email memberInput) invited) w1 (Some row)
  /\ returns (acceptInvite (id ref) account) w1 (Some ref)
  /\ returns (getByEmailAndStatus (email memberInput) invited) w2 None
  /\ returns (getByEmailAndStatus (email memberInput) active) w2
             (Some (mkMember (memberSeq (db w)) (entropy env (draws w))
                             (email memberInput) (Some account)
                             (workspaceId memberInput)
                             (createdBy memberInput) (role memberInput)
                             active None None)).
Proof.
  intros row ref w1 w2.
  unfold returns in no_pending, no_active. cbn in no_pending, no_active.
  injection no_pending as Hpending. injection no_active as Hactive.
  assert (Hold : forall r, In r (workspaceMembers (db w)) ->
                           (m_id r =? memberSeq (db w)) = false).
  { intros r Hr. unfold memberSeq_fresh in fresh.
    rewrite Forall_forall in fresh. specialize (fresh r Hr).
    apply Z.eqb_neq. lia. }
  assert (Hupd :
    forall set,
      update_where (fun m => m_id m =? memberSeq (db w)) set
                   (workspaceMembers (db w) ++ [row])
      = workspaceMembers (db w) ++ [set row]).
  { intros set. rewrite update_where_app.
    rewrite (update_where_none _ _ _ Hold). cbn. subst row. cbn [m_id].
    now rewrite Z.eqb_refl. }
  assert (Haff :
    affected (fun m => m_id m =? memberSeq (db w))
             (workspaceMembers (db w) ++ [row]) = [row]).
  { unfold affected. rewrite filter_app.
    fold (affected (fun m => m_id m =? memberSeq (db w))
                   (workspaceMembers (db w))).
    rewrite (affected_none _ _ Hold). cbn. subst row. cbn [m_id].
    now rewrite Z.eqb_refl. }
  subst w2 w1 ref. unfold returns, after, create, acceptInvite,
    getByEmailAndStatus. run. rewrite as_invited. fold row.
  rewrite Hupd, Haff. cbn [map hd_error returningRef].
  split; [reflexivity|]. split; [|split; [subst row; reflexivity|split]].
  - f_equal. apply find_snoc; [exact Hpending|]. subst row. cbn.
    now rewrite String.eqb_refl.
  - f_equal. apply find_snoc_none; [exact Hpending|]. subst row. cbn.
    now rewrite String.eqb_refl.
  - f_equal. subst row. cbn [m_id m_publicId m_email m_userId m_workspaceId
                             m_createdBy m_role m_status m_deletedAt
                             m_deletedBy].
    apply find_snoc; [exact Hactive|]. cbn. now rewrite String.eqb_refl.
Qed.

End EmailInviteLifecycle.

Lemma invited_then_accepted_witness :
  let e := Acme.env false true true in
  let invitation :=
    mkMemberInput None "eve@example.com" 1 "u-alice" "member" invited in
  let w2 := after (acceptInvite 4 "u-eve")
                  (after (create e invitation) (Acme.world [])) in
  returns (getByEmailAndStatus "eve@example.com" active) w2
          (Some (mkMember 4 "uid_0" "eve@example.com" (Some "u-eve") 1
                          "u-alice" "member" active None None))
  /\ returns (getByEmailAndStatus "eve@example.com" invited) w2 None.
Proof.
  cbv zeta.
  destruct (invited_then_accepted
              (Acme.env false true true) (Acme.world [])
              (mkMemberInput None "eve@example.com" 1 "u-alice" "member"
                             invited)
              "u-eve" eq_refl eq_refl eq_refl)
    as (_ & _ & _ & Hnone & Hactive).
  - unfold memberSeq_fresh. cbn. repeat constructor.
  - exact (conj Hactive Hnone).
Defined.

Lemma key_matches_once {A} (f : A -> Z) (k : Z) (l : list A) :
  NoDup (map f l) ->
  (List.length (filter (fun x => Z.eqb (f x) k) l) <= 1)%nat.
Proof.
  induction l as [|x l IH]; cbn; [lia|].
  intros H. inversion H as [|? ? Hx Hl]; subst.
  destruct (Z.eqb_spec (f x) k) as [E|]; [|auto].
  assert (Hnone : filter (fun y => f y =? k) l = []).
  { apply (affected_none (fun y => f y =? k)).
    intros r Hr. apply Z.eqb_neq. intros E'. apply Hx.
    rewrite E, <- E'. now apply in_map. }
  rewrite Hnone. cbn. lia.
Qed.

(** X19. Deleting a link from the table.  [deleteInviteLink] removes exactly the
    rows with the given id and reports how many there were, at most one
    when ids are a key; run again, it reports none and leaves the table as
    the first run left it. *)
Theorem deleteInviteLink_removes_by_id w inviteLinkId :
  let run := memberRepo.deleteInviteLink inviteLinkId in
  (forall l, In l (workspaceInviteLinks (db (after run w))) <->
             In l (workspaceInviteLinks (db w)) /\ l_id l <> inviteLinkId)
  /\ returns run w
       (List.length (filter (fun l => l_id l =? inviteLinkId)
                            (workspaceInviteLinks (db w))))
  /\ (link_pk (db w) ->
      exists n, returns run w n /\ (n <= 1)%nat)
  /\ returns run (after run w) 0%nat
  /\ db (after run (after run w)) = db (after run w).
Proof.
  intros run. subst run. unfold returns, after. run.
  unfold delete_where, affected.
  assert (Hgone :
    forall r,
      In r (filter (fun r => negb (l_id r =? inviteLinkId))
                   (workspaceInviteLinks (db w))) ->
      (l_id r =? inviteLinkId) = false).
  { intros r Hr. apply filter_In in Hr as [_ Hr].
    now apply negb_true_iff. }
  split; [|split; [reflexivity|split; [|split]]].
  - intros l. rewrite filter_In, negb_true_iff, Z.eqb_neq. reflexivity.
  - intros Hpk. eexists. split; [reflexivity|].
    now apply key_matches_once.
  - f_equal. fold (affected (fun l => l_id l =? inviteLinkId)
                     (filter (fun r => negb (l_id r =? inviteLinkId))
                             (workspaceInviteLinks (db w)))).
    now rewrite (affected_none _ _ Hgone).
  - assert (Hid : forall rows : list InviteLink,
               (forall r, In r rows -> (l_id r =? inviteLinkId) = false) ->
               filter (fun r => negb (l_id r =? inviteLinkId)) rows = rows).
    { induction rows as [|x rows IH]; cbn; intros H; [reflexivity|].
      rewrite (H x (or_introl eq_refl)). cbn. f_equal. apply IH.
      intros r Hr. apply H. now right. }
    unfold set_workspaceInviteLinks.
    cbn [workspaceMembers workspaceInviteLinks workspaces users
         subscriptions memberSeq inviteLinkSeq].
    now rewrite (Hid _ Hgone).
Qed.

(** ** A redeemed membership and its removal *)

(** The billing branch of [delete] for a seat-limited workspace. *)
Lemma delete_billing_seat env workspace w1 subs team sid :
  isCloud env = true ->
  returns (subscriptionRepo.getByReferenceId (w_publicId workspace)) w1 subs ->
  getSubscriptionByPlan subs "team" = Some team ->
  s_stripeSubscriptionId team = Some sid ->
  sid <> EmptyString ->
  hasUnlimitedSeats subs = false ->
  stripe_ok env sid (-1) = true ->
  delete_billing env workspace w1
  = (Ok tt,
     mkWorld (db w1) (ticks w1) (draws w1)
             (trace w1 ++ [SeatsUpdated sid (-1) true])).
Proof.
  intros cloud plans teamPlan handle truthy limited ok.
  unfold returns in plans. cbn in plans. injection plans as Hsubs.
  apply String.eqb_neq in truthy.
  unfold delete_billing. rewrite cloud. run. rewrite Hsubs, teamPlan.
  cbn [stripeSubscriptionIdOf]. rewrite handle, truthy, limited.
  run. rewrite ok. reflexivity.
Qed.

Section RedeemThenRemove.

Variables (env : Env) (w : World) (input : AcceptInviteLinkInput)
          (invite : InviteLink) (workspace : Workspace) (user : User)
          (adminId : string)
          (subs : list Subscription) (team : Subscription) (sid : string).

Hypothesis link :
  returns (getInviteLinkByCode (a_inviteCode input)) w (Some invite).
Hypothesis valid : redeemable (clock env (ticks w)) invite = true.
Hypothesis workspace_by_id :
  returns (workspaceRepo.getById (l_workspaceId invite)) w (Some workspace).
Hypothesis outsider :
  returns (workspaceRepo.isUserInWorkspace (a_userId input)
                                           (l_workspaceId invite)) w false.
Hypothesis account : returns (userRepo.getById (a_userId input)) w (Some user).
Hypothesis unused_publicId :
  returns (getByPublicId (entropy env (draws w))) w None.
Hypothesis authenticated : adminId <> EmptyString.
Hypothesis workspace_by_publicId :
  returns (workspaceRepo.getByPublicId (w_publicId workspace)) w
          (Some workspace).
Hypothesis admin :
  returns (assertUserInWorkspace adminId (w_id workspace) "admin") w tt.
Hypothesis cloud : isCloud env = true.
Hypothesis plans :
  returns (subscriptionRepo.getByReferenceId (w_publicId workspace)) w subs.
Hypothesis teamPlan : getSubscriptionByPlan subs "team" = Some team.
Hypothesis handle : s_stripeSubscriptionId team = Some sid.
Hypothesis handle_truthy : sid <> EmptyString.
Hypothesis limited : hasUnlimitedSeats subs = false.
Hypothesis decrement_ok : stripe_ok env sid (-1) = true.

(** X12. Seats do not balance over a redemption and the removal of the member
    it created.  In the hosted deployment, with a team subscription that
    has a handle and no unlimited seats, redeeming a link adds an active
    member and leaves the counted seats as they were; removing that member
    by the public id the redemption gave the row then takes one seat away.
    After both calls the subscription counts one seat less than before
    them. *)
Theorem redeem_then_delete_takes_a_seat :
  let first := acceptInviteLink env input in
  let w1 := after first w in
  let second :=
    delete env (Some adminId)
           (mkDeleteInput (w_publicId workspace) (entropy env (draws w))) in
  returns first w
          (mkAcceptInviteLinkOutput true (Some (w_publicId workspace))
                                    (Some (w_slug workspace)))
  /\ seatCount sid (trace w1) = seatCount sid (trace w)
  /\ returns second w1 (mkSuccess true)
  /\ seatCount sid (trace (after second w1)) = seatCount sid (trace w) - 1.
Proof.
  intros first w1 second. subst first w1 second.
  set (row := redeemedMember env w invite user).
  pose proof (acceptInviteLink_run env w input invite workspace user
                link valid workspace_by_id outsider account) as Hrun1.
  fold row in Hrun1.
  match type of Hrun1 with _ = (_, ?w') => set (w1 := w') in * end.
  assert (E1 : after (acceptInviteLink env input) w = w1)
    by (unfold after; now rewrite Hrun1).
  rewrite !E1. unfold returns at 1. rewrite Hrun1. cbn [fst].
  unfold returns in unused_publicId, workspace_by_publicId.
  cbn in unused_publicId, workspace_by_publicId.
  injection unused_publicId as Hfresh.
  injection workspace_by_publicId as Hws.
  assert (Hfound1 :
    returns (workspaceRepo.getByPublicId (w_publicId workspace)) w1
            (Some workspace)).
  { unfold returns. cbn. now rewrite Hws. }
  assert (Hadmin1 :
    returns (assertUserInWorkspace adminId (w_id workspace) "admin") w1 tt).
  { unfold returns, assertUserInWorkspace in admin |- *.
    cbn in admin |- *. rewrite existsb_app.
    destruct (existsb _ (workspaceMembers (db w))); [reflexivity|].
    discriminate admin. }
  assert (Hpresent1 :
    returns (getByPublicId (entropy env (draws w))) w1 (Some row)).
  { unfold returns. cbn. f_equal.
    apply find_snoc; [exact Hfresh | apply String.eqb_refl]. }
  pose proof (delete_split env w1 adminId
                (mkDeleteInput (w_publicId workspace)
                               (entropy env (draws w)))
                workspace row authenticated Hfound1 Hadmin1 Hpresent1
                eq_refl) as Hsplit.
  assert (Hplans1 :
    returns (subscriptionRepo.getByReferenceId (w_publicId workspace))
            (removed env w1 adminId row) subs).
  { unfold returns in plans |- *. cbn in plans |- *. exact plans. }
  rewrite (bind_Ok _ _ _ _ _
             (delete_billing_seat env workspace _ subs team sid cloud
                Hplans1 teamPlan handle handle_truthy limited decrement_ok))
    in Hsplit.
  cbv beta delta [ret] in Hsplit.
  match type of Hsplit with _ = (_, ?w') => set (w2 := w') in * end.
  assert (E2 : after (delete env (Some adminId)
                        (mkDeleteInput (w_publicId workspace)
                                       (entropy env (draws w)))) w1 = w2)
    by (unfold after; now rewrite Hsplit).
  rewrite !E2. unfold returns at 1. rewrite Hsplit. cbn [fst].
  split; [reflexivity|]. split.
  { subst w1. cbn [trace]. rewrite seatCount_app. cbn [seatCount]. lia. }
  split; [reflexivity|].
  subst w2 w1. cbn [trace removed]. rewrite !seatCount_app.
  cbn [seatCount]. rewrite String.eqb_refl. lia.
Qed.

End RedeemThenRemove.

Lemma redeem_then_delete_takes_a_seat_witness :
  let e := Acme.env true true true in
  let w := Acme.world [Acme.teamPlan] in
  let w1 :=
    after (acceptInviteLink e (mkAcceptInviteLinkInput "AbCdEfGhIjKl"
                                                       "u-bob")) w in
  let second :=
    delete e (Some "u-alice") (mkDeleteInput "ws_acme_000001" "uid_0") in
  seatCount "sub_team_1" (trace w1) = 0
  /\ returns second w1 (mkSuccess true)
  /\ seatCount "sub_team_1" (trace (after second w1)) = -1.
Proof.
  cbv zeta.
  destruct (redeem_then_delete_takes_a_seat
              (Acme.env true true true) (Acme.world [Acme.teamPlan])
              (mkAcceptInviteLinkInput "AbCdEfGhIjKl" "u-bob")
              Acme.link1 Acme.acme Acme.bob "u-alice"
              [Acme.teamPlan] Acme.teamPlan "sub_team_1"
              eq_refl eq_refl eq_refl eq_refl eq_refl eq_refl
              ltac:(discriminate) eq_refl eq_refl eq_refl eq_refl eq_refl
              eq_refl ltac:(discriminate) eq_refl eq_refl)
    as (_ & Hsame & Hrun & Hdown).
  exact (conj Hsame (conj Hrun Hdown)).
Defined.

(** ** The theorems above on the Acme store *)

Lemma acme_store_wf plans : store_wf (Acme.store plans).
Proof.
  unfold store_wf, member_pk, memberSeq_fresh, link_pk, inviteLinkSeq_fresh.
  cbn. repeat split; repeat constructor; cbn; intuition discriminate.
Qed.

Lemma invite_delivered_witness :
  let run := invite (Acme.env false true true) (Some "u-alice")
                    Acme.inviteEve in
  returns run (Acme.world []) (mkMemberRef 4 "uid_0")
  /\ workspaceMembers (db (after run (Acme.world [])))
     = [Acme.aliceMember; Acme.carolMember; Acme.daveMember;
        Acme.eveRow None None].
Proof.
  cbv zeta.
  destruct (invite_delivered
              (Acme.env false true true) (Acme.world []) "u-alice"
              Acme.inviteEve Acme.acme [Acme.aliceMember; Acme.daveMember]
              ltac:(discriminate) eq_refl eq_refl eq_refl eq_refl eq_refl)
    as (Hrun & Htable & _).
  exact (conj Hrun Htable).
Defined.

Lemma self_hosted_never_bills_witness :
  emits_only notBilling (Acme.world [Acme.teamPlan])
    (after (invite (Acme.env false false true) (Some "u-alice")
                   Acme.inviteEve)
           (Acme.world [Acme.teamPlan])).
Proof.
  exact (proj1 (self_hosted_never_bills (Acme.env false false true) eq_refl)
               (Some "u-alice") Acme.inviteEve
               (Acme.world [Acme.teamPlan])).
Defined.

Lemma invite_then_delete_balances_witness :
  let e := Acme.env true true true in
  let w := Acme.world [Acme.teamPlan] in
  let w1 := after (invite e (Some "u-alice") Acme.inviteEve) w in
  let second :=
    delete e (Some "u-alice") (mkDeleteInput "ws_acme_000001" "uid_0") in
  seatCount "sub_team_1" (trace w1) = 1
  /\ returns second w1 (mkSuccess true)
  /\ seatCount "sub_team_1" (trace (after second w1)) = 0.
Proof.
  cbv zeta.
  destruct (invite_then_delete_balances
              (Acme.env true true true) (Acme.world [Acme.teamPlan])
              "u-alice" Acme.inviteEve Acme.acme
              [Acme.aliceMember; Acme.daveMember]
              [Acme.teamPlan] Acme.teamPlan "sub_team_1"
              ltac:(discriminate) eq_refl eq_refl eq_refl eq_refl eq_refl
              eq_refl eq_refl ltac:(discriminate) eq_refl eq_refl eq_refl
              eq_refl eq_refl)
    as (_ & Hup & Hrun & Hdown & _).
  exact (conj Hup (conj Hrun Hdown)).
Defined.

Lemma generated_link_redeems_witness :
  let e := Acme.env false true true in
  let gen :=
    generateInviteLink_request e (Some "u-alice")
      (mkGenerateInviteLinkRaw "ws_acme_000001" (Some "admin")
                               (Some (Int 1))) in
  let redeem :=
    acceptInviteLink e (mkAcceptInviteLinkInput "uid_0" "u-bob") in
  workspaceMembers (db (after redeem (after gen (Acme.world []))))
  = [Acme.aliceMember; Acme.carolMember; Acme.daveMember;
     mkMember 4 "uid_1" "bob@example.com" (Some "u-bob") 1 "u-alice"
              "admin" active None None].
Proof.
  cbv zeta.
  destruct (generated_link_redeems
              (Acme.env false true true) (Acme.world []) "u-alice"
              (mkGenerateInviteLinkRaw "ws_acme_000001" (Some "admin")
                                       (Some (Int 1)))
              (mkGenerateInviteLinkInput "ws_acme_000001" "admin" 1)
              Acme.acme [Acme.aliceMember; Acme.daveMember] [] "u-bob"
              Acme.bob
              ltac:(discriminate) eq_refl eq_refl eq_refl eq_refl
              ltac:(discriminate) eq_refl eq_refl eq_refl eq_refl
              ltac:(vm_compute; discriminate))
    as (_ & _ & Htable).
  exact Htable.
Defined.

Lemma router_keeps_keys_witness :
  store_wf (db (Acme.world []))
  /\ store_wf (db (after (invite (Acme.env false true false)
                                 (Some "u-alice") Acme.inviteEve)
                         (Acme.world []))).
Proof.
  split; [apply acme_store_wf|].
  exact (proj1 (router_keeps_keys (Acme.env false true false))
               (Some "u-alice") Acme.inviteEve (Acme.world [])
               (acme_store_wf [])).
Defined.
